(** * CHIP-8 interpreter (chip-8_js): shallow embedding and verified properties

    The JavaScript classes [Renderer], [Speaker] and [CPU] of
    [src/scripts] are embedded as state-passing functions over records.
    Numbers that the program keeps integral are [Z]; typed arrays
    ([Uint8Array]) are lists with stdpp's lookup and insert, whose
    out-of-range behaviour (read [None], write ignored) is the one of a
    typed array; the sparse [Array] behind the display is a [gmap Z Z],
    where an absent key is an empty slot (it reads as [undefined]). *)

From Stdlib Require Import ZArith Lia Bool List Floats.SpecFloat.
From stdpp Require Import base option list gmap.

Local Open Scope Z_scope.

(** ** JavaScript values and coercions used by the program *)
Module JS.

(** The values the program counter and the stack entries can take:
    [Array.prototype.pop] on an empty array gives [undefined], and
    [undefined + 2] is [NaN]. *)
Inductive value : Type :=
| Undefined
| NaN
| Num (z : Z).

(** [a + k] for a numeric literal [k]. *)
Definition add (a : value) (k : Z) : value :=
  match a with
  | Num z => Num (z + k)
  | _ => NaN
  end.

(** ToInt32 / ToUint8 of the result of an array read: [undefined]
    becomes 0, a byte is itself. *)
Definition to_int (o : option Z) : Z := default 0 o.

(** Storing a number into a [Uint8Array] keeps it modulo 2^8. *)
Definition to_uint8 (z : Z) : Z := z mod 256.

(** Truthiness of an array cell: [undefined] and 0 are falsy. *)
Definition truthy (o : option Z) : bool :=
  match o with
  | Some z => negb (z =? 0)
  | None => false
  end.

(** [a[idx]] on a typed array, for an integral index. *)
Definition get (a : list Z) (idx : Z) : option Z :=
  if 0 <=? idx then a !! Z.to_nat idx else None.

(** [a[p]] where [p] is any value: only an integral number selects a cell. *)
Definition get_at (a : list Z) (p : value) : option Z :=
  match p with
  | Num z => get a z
  | _ => None
  end.

(** [a[idx] = val] on a [Uint8Array]: the value is reduced modulo 256
    and a write outside the array is ignored. *)
Definition set (a : list Z) (idx val : Z) : list Z :=
  if 0 <=? idx then <[Z.to_nat idx := to_uint8 val]> a else a.

(** A Number in the interval from 0 to 1, as [Math.random()] returns
    it: an IEEE binary64 value [mant / 2 ^ scale]. *)
Record unit_double : Type := mkUnitDouble { mant : Z; scale : Z }.

(** A binary64 significand has 53 bits, and the drawn number is at
    least 0 and strictly below 1. *)
Definition unit_double_ok (u : unit_double) : Prop :=
  0 <= scale u /\ 0 <= mant u < 2 ^ 53 /\ mant u < 2 ^ scale u.

(** Rounding of a non-negative integer to 53 significant bits, to
    nearest with ties to even: the rounding of a binary64 product. *)
Definition round53 (p : Z) : Z :=
  let e := Z.log2 p - 52 in
  if e <=? 0 then p
  else
    let q := p / 2 ^ e in
    let r := p mod 2 ^ e in
    let h := 2 ^ (e - 1) in
    let q' := if (h <? r) || ((r =? h) && Z.odd q) then q + 1 else q in
    q' * 2 ^ e.

(** [Math.floor(u * k)] for a non-negative integer constant [k]: the
    exact product [mant * k / 2 ^ scale] is rounded to binary64 and
    then truncated. *)
Definition floor_mul (u : unit_double) (k : Z) : Z :=
  round53 (mant u * k) / 2 ^ scale u.

(** The same computation through the Standard Library's model of
    IEEE 754 arithmetic, against which [round53] is checked below:
    [u] as a binary64 number, the binary64 product, and its floor. *)
Definition to_binary64 (u : unit_double) : spec_float :=
  match mant u with
  | Zpos m => S754_finite false m (- scale u)
  | _ => S754_zero false
  end.

Definition floor_binary64 (f : spec_float) : Z :=
  match f with
  | S754_finite false m e =>
      if 0 <=? e then Zpos m * 2 ^ e else Zpos m / 2 ^ (- e)
  | _ => 0
  end.

Definition floor_mul_binary64 (u : unit_double) (k : Z) : Z :=
  floor_binary64
    (SFmul 53 1024 (to_binary64 u) (S754_finite false (Z.to_pos k) 0)).

End JS.

(** ** class Renderer *)
Module Renderer.

(** A rectangle painted by [fillRect(x, y, w, h)]. *)
Definition rect : Type := (Z * Z * Z * Z)%type.

(** [display] is the pixel array; [canvas] is what the last [render]
    painted on the canvas element. *)
Record t : Type := mk {
  scale : Z;
  display : gmap Z Z;
  canvas : list rect
}.

(** [this.cols] and [this.rows], set once by the constructor. *)
Definition cols : Z := 64.
Definition rows : Z := 32.

Definition set_display (r : t) (d : gmap Z Z) : t :=
  {| scale := scale r; display := d; canvas := canvas r |}.

Definition set_canvas (r : t) (c : list rect) : t :=
  {| scale := scale r; display := display r; canvas := c |}.

(** [new Renderer(scale)]: [new Array(cols * rows)] has only empty slots. *)
Definition new (scale : Z) : t :=
  {| scale := scale; display := ∅; canvas := [] |}.

(** The index [pixelLoc] that [setPixel(x, y)] computes. *)
Definition pixelLoc (x y : Z) : Z :=
  let x := if cols <? x then x - cols
           else if x <? 0 then x + cols
           else x in
  let y := if rows <? y then y - rows
           else if y <? 0 then y + rows
           else y in
  x + y * cols.

(** [setPixel(x, y)]: toggles the cell and returns [!display[pixelLoc]]. *)
Definition setPixel (r : t) (x y : Z) : t * bool :=
  let loc := pixelLoc x y in
  let d := <[loc := Z.lxor (JS.to_int (display r !! loc)) 1]> (display r) in
  (set_display r d, negb (JS.truthy (d !! loc))).

Definition clear (r : t) : t := set_display r ∅.

(** [render()]: the canvas is cleared, then one square per truthy cell
    of the [cols * rows] first cells is painted. *)
Definition render (r : t) : t :=
  set_canvas r
    (omap (fun i : Z =>
             if JS.truthy (display r !! i)
             then Some ((i mod cols) * scale r, (i / cols) * scale r,
                        scale r, scale r)
             else None)
          (seqZ 0 (cols * rows))).

(** A pixel is lit when its cell is truthy: this is what [render] tests. *)
Definition lit (r : t) (loc : Z) : bool := JS.truthy (display r !! loc).

End Renderer.

(** ** class Speaker *)
Module Speaker.

(** [oscillator] holds the frequency of the running oscillator, if any. *)
Record t : Type := mk { oscillator : option Z }.

Definition new : t := {| oscillator := None |}.

(** [play(frequency)]: starts an oscillator unless one is running. *)
Definition play (sp : t) (frequency : Z) : t :=
  match oscillator sp with
  | None => {| oscillator := Some (if frequency =? 0 then 440 else frequency) |}
  | Some _ => sp
  end.

Definition stop (sp : t) : t := {| oscillator := None |}.

End Speaker.

(** ** class CPU *)
Module CPU.

(** The only exception the class raises:
    [new Error('Unknown opcode' + opcode)]. *)
Inductive error : Type :=
| UnknownOpcode (opcode : Z).

Inductive result (A : Type) : Type :=
| Ok (a : A)
| Throw (e : error).
Arguments Ok {A} a.
Arguments Throw {A} e.

(** The fields of a [CPU] object, with the collaborators it owns.  The
    keyboard object is represented by its [onNextKeyPress] field: the
    register index captured by the pending callback, if any.  The head
    of [stack] is the last element of the JavaScript array. *)
Record t : Type := mk {
  renderer : Renderer.t;
  speaker : Speaker.t;
  onNextKeyPress : option Z;
  memory : list Z;
  v : list Z;
  i : Z;
  delayTimer : Z;
  soundTimer : Z;
  pc : JS.value;
  stack : list JS.value;
  paused : bool;
  speed : Z
}.

Definition set_renderer (s : t) (r : Renderer.t) : t :=
  mk r (speaker s) (onNextKeyPress s) (memory s) (v s) (i s)
     (delayTimer s) (soundTimer s) (pc s) (stack s) (paused s) (speed s).
Definition set_speaker (s : t) (sp : Speaker.t) : t :=
  mk (renderer s) sp (onNextKeyPress s) (memory s) (v s) (i s)
     (delayTimer s) (soundTimer s) (pc s) (stack s) (paused s) (speed s).
Definition set_onNextKeyPress (s : t) (k : option Z) : t :=
  mk (renderer s) (speaker s) k (memory s) (v s) (i s)
     (delayTimer s) (soundTimer s) (pc s) (stack s) (paused s) (speed s).
Definition set_memory (s : t) (m : list Z) : t :=
  mk (renderer s) (speaker s) (onNextKeyPress s) m (v s) (i s)
     (delayTimer s) (soundTimer s) (pc s) (stack s) (paused s) (speed s).
Definition set_v (s : t) (regs : list Z) : t :=
  mk (renderer s) (speaker s) (onNextKeyPress s) (memory s) regs (i s)
     (delayTimer s) (soundTimer s) (pc s) (stack s) (paused s) (speed s).
Definition set_i (s : t) (a : Z) : t :=
  mk (renderer s) (speaker s) (onNextKeyPress s) (memory s) (v s) a
     (delayTimer s) (soundTimer s) (pc s) (stack s) (paused s) (speed s).
Definition set_delayTimer (s : t) (d : Z) : t :=
  mk (renderer s) (speaker s) (onNextKeyPress s) (memory s) (v s) (i s)
     d (soundTimer s) (pc s) (stack s) (paused s) (speed s).
Definition set_soundTimer (s : t) (d : Z) : t :=
  mk (renderer s) (speaker s) (onNextKeyPress s) (memory s) (v s) (i s)
     (delayTimer s) d (pc s) (stack s) (paused s) (speed s).
Definition set_pc (s : t) (p : JS.value) : t :=
  mk (renderer s) (speaker s) (onNextKeyPress s) (memory s) (v s) (i s)
     (delayTimer s) (soundTimer s) p (stack s) (paused s) (speed s).
Definition set_stack (s : t) (st : list JS.value) : t :=
  mk (renderer s) (speaker s) (onNextKeyPress s) (memory s) (v s) (i s)
     (delayTimer s) (soundTimer s) (pc s) st (paused s) (speed s).
Definition set_paused (s : t) (b : bool) : t :=
  mk (renderer s) (speaker s) (onNextKeyPress s) (memory s) (v s) (i s)
     (delayTimer s) (soundTimer s) (pc s) (stack s) b (speed s).

(** Two machines with the same I, PC, stack, timers and paused flag. *)
Definition same_control (s s' : t) : Prop :=
  i s' = i s /\ pc s' = pc s /\ stack s' = stack s /\
  delayTimer s' = delayTimer s /\ soundTimer s' = soundTimer s /\
  paused s' = paused s.

(** Two machines whose typed arrays have the same sizes. *)
Definition same_sizes (s s' : t) : Prop :=
  length (v s') = length (v s) /\ length (memory s') = length (memory s).

(** [new CPU(renderer, keyboard, speaker)]. *)
Definition new (r : Renderer.t) (sp : Speaker.t) : t :=
  {| renderer := r; speaker := sp; onNextKeyPress := None;
     memory := replicate 4096 0; v := replicate 16 0; i := 0;
     delayTimer := 0; soundTimer := 0; pc := JS.Num 0x200;
     stack := []; paused := false; speed := 10 |}.

(** [for (let k = k0; ...; k++) body], run [n] times. *)
Fixpoint for_loop {S : Type} (n : nat) (k : Z) (body : Z -> S -> S) (s : S) : S :=
  match n with
  | O => s
  | Datatypes.S n' => for_loop n' (k + 1) body (body k s)
  end.

Definition sprites : list Z :=
  [ 0xF0; 0x90; 0x90; 0x90; 0xF0;
    0x20; 0x60; 0x20; 0x20; 0x70;
    0xF0; 0x10; 0xF0; 0x80; 0xF0;
    0xF0; 0x10; 0xF0; 0x10; 0xF0;
    0x90; 0x90; 0xF0; 0x10; 0x10;
    0xF0; 0x80; 0xF0; 0x10; 0xF0;
    0xF0; 0x80; 0xF0; 0x90; 0xF0;
    0xF0; 0x10; 0x20; 0x40; 0x40;
    0xF0; 0x90; 0xF0; 0x90; 0xF0;
    0xF0; 0x90; 0xF0; 0x10; 0xF0;
    0xF0; 0x90; 0xF0; 0x90; 0x90;
    0xE0; 0x90; 0xE0; 0x90; 0xE0;
    0xF0; 0x80; 0x80; 0x80; 0xF0;
    0xE0; 0x90; 0x90; 0x90; 0xE0;
    0xF0; 0x80; 0xF0; 0x80; 0xF0;
    0xF0; 0x80; 0xF0; 0x80; 0x80 ].

Definition loadSpritesIntoMemory (s : t) : t :=
  for_loop (length sprites) 0
    (fun k s => set_memory s (JS.set (memory s) k (JS.to_int (JS.get sprites k))))
    s.

(** [program] is a [Uint8Array]. *)
Definition loadProgramIntoMemory (program : list Z) (s : t) : t :=
  for_loop (length program) 0
    (fun loc s =>
       set_memory s (JS.set (memory s) (0x200 + loc) (JS.to_int (JS.get program loc))))
    s.

(** [this.v[x]] read as a number.  The register file has 16 cells and
    every index the program uses is below 16, so the read never misses. *)
Definition getV (s : t) (x : Z) : Z := JS.to_int (JS.get (v s) x).

(** [this.v[x] = val]. *)
Definition setV (s : t) (x val : Z) : t := set_v s (JS.set (v s) x val).

(** [this.memory[a]] read in a context that coerces it to an integer. *)
Definition getMem (s : t) (a : Z) : Z := JS.to_int (JS.get (memory s) a).

(** [this.memory[a] = val]. *)
Definition setMem (s : t) (a val : Z) : t := set_memory s (JS.set (memory s) a val).

(** [this.pc += 2]. *)
Definition skip (s : t) : t := set_pc s (JS.add (pc s) 2).

Definition updateTimers (s : t) : t :=
  let s := if 0 <? delayTimer s then set_delayTimer s (delayTimer s - 1) else s in
  if 0 <? soundTimer s then set_soundTimer s (soundTimer s - 1) else s.

Definition playSound (s : t) : t :=
  if 0 <? soundTimer s
  then set_speaker s (Speaker.play (speaker s) 440)
  else set_speaker s (Speaker.stop (speaker s)).

(** *** The instructions, in the order of [executeInstruction] *)

(** 00EE - RET: [this.pc = this.stack.pop()]. *)
Definition RET (s : t) : t :=
  match stack s with
  | top :: rest => set_pc (set_stack s rest) top
  | [] => set_pc s JS.Undefined
  end.

(** 2nnn - CALL addr. *)
Definition CALL (opcode : Z) (s : t) : t :=
  let s := set_stack s (pc s :: stack s) in
  set_pc s (JS.Num (Z.land opcode 0xFFF)).

(** 8xy4 - ADD Vx, Vy.  [sum] is the value of the compound
    assignment, that is the sum before it is stored. *)
Definition ADD_xy (x y : Z) (s : t) : t :=
  let sum := getV s x + getV s y in
  let s := setV s x sum in
  let s := setV s 0xF 0 in
  let s := if 0xFF <? sum then setV s 0xF 1 else s in
  setV s x sum.

(** 8xy5 - SUB Vx, Vy. *)
Definition SUB_xy (x y : Z) (s : t) : t :=
  let s := setV s 0xF 0 in
  let s := if getV s y <? getV s x then setV s 0xF 1 else s in
  setV s x (getV s x - getV s y).

(** 8xy6 - SHR Vx. *)
Definition SHR_x (x : Z) (s : t) : t :=
  let s := setV s 0xF (Z.land (getV s x) 0x1) in
  setV s x (Z.shiftr (getV s x) 1).

(** 8xy7 - SUBN Vx, Vy. *)
Definition SUBN_xy (x y : Z) (s : t) : t :=
  let s := setV s 0xF 0 in
  let s := if getV s x <? getV s y then setV s 0xF 1 else s in
  setV s x (getV s y - getV s x).

(** 8xyE - SHL Vx. *)
Definition SHL_x (x : Z) (s : t) : t :=
  let s := setV s 0xF (Z.land (getV s x) 0x80) in
  setV s x (Z.shiftl (getV s x) 1).

(** Cxkk - RND Vx, byte: [Math.floor(Math.random() * 0xFF)], where
    [u] is the number [Math.random()] returns. *)
Definition RND (u : JS.unit_double) (x opcode : Z) (s : t) : t :=
  let rand := JS.floor_mul u 0xFF in
  setV s x (Z.land rand (Z.land opcode 0xFF)).

(** A call of [setPixel] made by a draw: the cell it toggled and the
    boolean it returned. *)
Definition call : Type := (Z * bool)%type.

(** Dxyn, the body of [if ((sprite & 0x80) > 0)]: the pixel at
    [(px, py)] is toggled and VF is set if that erased it.  The list of
    the [setPixel] calls made so far is carried along with the machine
    for the statements about the draw. *)
Definition plot (px py : Z) (acc : t * list call) : t * list call :=
  let '(s, log) := acc in
  let '(r, erased) := Renderer.setPixel (renderer s) px py in
  let s := set_renderer s r in
  (if erased then setV s 0xF 1 else s,
   log ++ [(Renderer.pixelLoc px py, erased)]).

(** Dxyn, one turn of the inner loop, whose state is the machine (with
    the calls) and the local [sprite]. *)
Definition drawCol (x y row col : Z) (acc : t * list call * Z) : t * list call * Z :=
  let '(s, log, sprite) := acc in
  let '(s, log) :=
    if 0 <? Z.land sprite 0x80
    then plot (getV s x + col) (getV s y + row) (s, log)
    else (s, log) in
  (s, log, Z.shiftl sprite 1).

(** Dxyn, one turn of the outer loop ([width] is 8). *)
Definition drawRow (x y row : Z) (acc : t * list call) : t * list call :=
  let '(s, log) := acc in
  let sprite := getMem s (i s + row) in
  fst (for_loop 8 0 (drawCol x y row) (s, log, sprite)).

(** Dxyn - DRW Vx, Vy, nibble. *)
Definition DRW (x y opcode : Z) (s : t) : t * list call :=
  let height := Z.land opcode 0xF in
  let s := setV s 0xF 0 in
  for_loop (Z.to_nat height) 0 (drawRow x y) (s, []).

(** Fx0A - LD Vx, K. *)
Definition LD_K (x : Z) (s : t) : t :=
  set_onNextKeyPress (set_paused s true) (Some x).

(** The callback stored by Fx0A, called by the keyboard with the key. *)
Definition keyPressed (x key : Z) (s : t) : t :=
  set_paused (setV s x key) false.

(** Fx33 - LD B, Vx ([parseInt] of these quotients is their floor). *)
Definition LD_B (x : Z) (s : t) : t :=
  let s := setMem s (i s) (getV s x / 100) in
  let s := setMem s (i s + 1) ((getV s x mod 100) / 10) in
  setMem s (i s + 2) (getV s x mod 10).

(** Fx55 - LD [I], Vx. *)
Definition LD_I_Vx (x : Z) (s : t) : t :=
  for_loop (Z.to_nat (x + 1)) 0
    (fun registerIndex s => setMem s (i s + registerIndex) (getV s registerIndex)) s.

(** Fx65 - LD Vx, [I]. *)
Definition LD_Vx_I (x : Z) (s : t) : t :=
  for_loop (Z.to_nat (x + 1)) 0
    (fun registerIndex s => setV s registerIndex (getMem s (i s + registerIndex))) s.

(** The fields [x] and [y] of an opcode:
    [(opcode & 0x0F00) >> 8] and [(opcode & 0x00F0) >> 4]. *)
Definition opX (opcode : Z) : Z := Z.shiftr (Z.land opcode 0x0F00) 8.
Definition opY (opcode : Z) : Z := Z.shiftr (Z.land opcode 0x00F0) 4.

(** [executeInstruction(opcode)].  [isKeyPressed] is the keyboard's
    method and [u] the number [Math.random()] returns if it is called. *)
Definition executeInstruction (isKeyPressed : Z -> bool) (u : JS.unit_double)
    (opcode : Z) (s : t) : result t :=
  let s := skip s in
  let x := opX opcode in
  let y := opY opcode in
  match Z.land opcode 0xF000 with
  | 0x0000 =>
      match opcode with
      | 0x00E0 => Ok (set_renderer s (Renderer.clear (renderer s)))
      | 0x00EE => Ok (RET s)
      | _ => Ok s
      end
  | 0x1000 => Ok (set_pc s (JS.Num (Z.land opcode 0xFFF)))
  | 0x2000 => Ok (CALL opcode s)
  | 0x3000 => Ok (if getV s x =? Z.land opcode 0xFF then skip s else s)
  | 0x4000 => Ok (if getV s x =? Z.land opcode 0xFF then s else skip s)
  | 0x5000 => Ok (if getV s x =? getV s y then skip s else s)
  | 0x6000 => Ok (setV s x (Z.land opcode 0xFF))
  | 0x7000 => Ok (setV s x (getV s x + Z.land opcode 0xFF))
  | 0x8000 =>
      match Z.land opcode 0xF with
      | 0x0 => Ok (setV s x (getV s y))
      | 0x1 => Ok (setV s x (Z.lor (getV s x) (getV s y)))
      | 0x2 => Ok (setV s x (Z.land (getV s x) (getV s y)))
      | 0x3 => Ok (setV s x (Z.lxor (getV s x) (getV s y)))
      | 0x4 => Ok (ADD_xy x y s)
      | 0x5 => Ok (SUB_xy x y s)
      | 0x6 => Ok (SHR_x x s)
      | 0x7 => Ok (SUBN_xy x y s)
      | 0xE => Ok (SHL_x x s)
      | _ => Ok s
      end
  | 0x9000 => Ok (if getV s x =? getV s y then s else skip s)
  | 0xA000 => Ok (set_i s (Z.land opcode 0xFFF))
  | 0xB000 => Ok (set_pc s (JS.Num (Z.land opcode 0xFFF + getV s 0)))
  | 0xC000 => Ok (RND u x opcode s)
  | 0xD000 => Ok (fst (DRW x y opcode s))
  | 0xE000 =>
      match Z.land opcode 0xFF with
      | 0x9E => Ok (if isKeyPressed (getV s x) then skip s else s)
      | 0xA1 => Ok (if isKeyPressed (getV s x) then s else skip s)
      | _ => Ok s
      end
  | 0xF000 =>
      match Z.land opcode 0xFF with
      | 0x07 => Ok (setV s x (delayTimer s))
      | 0x0A => Ok (LD_K x s)
      | 0x15 => Ok (set_delayTimer s (getV s x))
      | 0x18 => Ok (set_soundTimer s (getV s x))
      | 0x1E => Ok (set_i s (i s + getV s x))
      | 0x29 => Ok (set_i s (getV s x * 5))
      | 0x33 => Ok (LD_B x s)
      | 0x55 => Ok (LD_I_Vx x s)
      | 0x65 => Ok (LD_Vx_I x s)
      | _ => Ok s
      end
  | _ => Throw (UnknownOpcode opcode)
  end.

(** The opcode [cycle] reads at [pc]:
    [this.memory[this.pc] << 8 | this.memory[this.pc + 1]]. *)
Definition fetch (s : t) : Z :=
  Z.lor (Z.shiftl (JS.to_int (JS.get_at (memory s) (pc s))) 8)
        (JS.to_int (JS.get_at (memory s) (JS.add (pc s) 1))).

(** The [for] loop of [cycle]: [n] turns are left, [k] is the loop
    counter, and [rnd k] is what [Math.random()] would return in turn
    [k].  An exception leaves the loop and [cycle]. *)
Fixpoint cycleLoop (isKeyPressed : Z -> bool) (rnd : nat -> JS.unit_double)
    (n k : nat) (s : t) : result t :=
  match n with
  | O => Ok s
  | S n' =>
      if paused s then cycleLoop isKeyPressed rnd n' (S k) s
      else
        match executeInstruction isKeyPressed (rnd k) (fetch s) s with
        | Ok s' => cycleLoop isKeyPressed rnd n' (S k) s'
        | Throw e => Throw e
        end
  end.

(** [cycle()]. *)
Definition cycle (isKeyPressed : Z -> bool) (rnd : nat -> JS.unit_double)
    (s : t) : result t :=
  match cycleLoop isKeyPressed rnd (Z.to_nat (speed s)) 0 s with
  | Throw e => Throw e
  | Ok s =>
      let s := if paused s then s else updateTimers s in
      let s := playSound s in
      Ok (set_renderer s (Renderer.render (renderer s)))
  end.

End CPU.

(** ** chip8.js *)
Module Chip8.

Definition renderer : Renderer.t := Renderer.new 10.
Definition speaker : Speaker.t := Speaker.new.
Definition cpu : CPU.t := CPU.new renderer speaker.

(** The machine that [init()] sets up when the ROM [program] that
    [loadRom] requested arrives before the first frame cycle: the font,
    then the program, and no cycle in between.  The other orders are
    those of [boot]. *)
Definition init (program : list Z) : CPU.t :=
  CPU.loadProgramIntoMemory program (CPU.loadSpritesIntoMemory cpu).



(** A keyboard with no key held, and a [Math.random] that returns 0. *)
Definition noKey (key : Z) : bool := false.
Definition zero : JS.unit_double := JS.mkUnitDouble 0 0.

(** Numbers that [Math.random()] can return, the last one being the
    largest double below 1. *)
Definition draws : list JS.unit_double :=
  [ JS.mkUnitDouble 0 0; JS.mkUnitDouble 1 1; JS.mkUnitDouble 3 2;
    JS.mkUnitDouble 1 1074;
    JS.mkUnitDouble (2 ^ 45) 53; JS.mkUnitDouble (2 ^ 45 + 1) 53;
    JS.mkUnitDouble 35326106355727 53; JS.mkUnitDouble 35326106355728 53;
    JS.mkUnitDouble 70652212711454 53;
    JS.mkUnitDouble (2 ^ 52 + 1) 53; JS.mkUnitDouble (2 ^ 52 + 128) 53;
    JS.mkUnitDouble 6004799503160661 53; JS.mkUnitDouble 6004799503160661 60;
    JS.mkUnitDouble (2 ^ 53 - 129) 53; JS.mkUnitDouble (2 ^ 53 - 1) 53 ].

End Chip8.

(** ** Notions used to state the properties of a draw *)
Module Draw.

(** The display after the cell [loc] has been toggled: what [setPixel]
    does to [display]. *)
Definition toggle (d : gmap Z Z) (loc : Z) : gmap Z Z :=
  <[loc := Z.lxor (JS.to_int (d !! loc)) 1]> d.

(** Whether [loc] occurs an odd number of times in [locs]. *)
Fixpoint flips (locs : list Z) (loc : Z) : bool :=
  match locs with
  | [] => false
  | a :: locs' => xorb (a =? loc) (flips locs' loc)
  end.

(** Whether some call of the list returned true. *)
Definition collided (log : list (Z * bool)) : bool := existsb snd log.

(** The cells toggled by the calls, in order. *)
Definition cells (log : list (Z * bool)) : list Z := map fst log.

(** What holds of a draw that started on the machine [s0] (VF already
    cleared), after any number of plotted pixels: VF tells whether a
    call returned true, the display is the initial one with the logged
    cells toggled, no lit pixel has gone off unless a call returned
    true, and only VF and the display have changed. *)
Definition inv (s0 : CPU.t) (acc : CPU.t * list CPU.call) : Prop :=
  let '(s, log) := acc in
  length (CPU.v s) = 16%nat /\
  CPU.getV s 0xF = (if collided log then 1 else 0) /\
  Renderer.display (CPU.renderer s)
  = fold_left toggle (cells log) (Renderer.display (CPU.renderer s0)) /\
  (collided log = false ->
   forall loc, Renderer.lit (CPU.renderer s0) loc = true ->
               Renderer.lit (CPU.renderer s) loc = true) /\
  CPU.memory s = CPU.memory s0 /\ CPU.i s = CPU.i s0 /\
  (forall z, z <> 0xF -> CPU.getV s z = CPU.getV s0 z).

(** Two machines on which Dxyn reads the same sprite and the same
    coordinates. *)
Definition same_sprite (x y : Z) (sa sb : CPU.t) : Prop :=
  CPU.getV sa x = CPU.getV sb x /\ CPU.getV sa y = CPU.getV sb y /\
  CPU.memory sa = CPU.memory sb /\ CPU.i sa = CPU.i sb.

(** Two draws in progress that have toggled the same cells. *)
Definition same_draw (x y : Z) (a b : CPU.t * list CPU.call) : Prop :=
  same_sprite x y (fst a) (fst b) /\ cells (snd a) = cells (snd b).

End Draw.

(** ** Well-formed machines *)
Module Inv.

(** An unsigned 8-bit value. *)
Definition byte (z : Z) : Prop := 0 <= z < 256.

(** Every cell of the display that has been written holds 0 or 1. *)
Definition binary (d : gmap Z Z) : Prop :=
  forall loc z, d !! loc = Some z -> z = 0 \/ z = 1.

(** What [new CPU] establishes: the sizes of the two typed arrays,
    whose cells are bytes, timers that are bytes (they are only ever
    copied from a register and decremented while positive), an address
    register that is not negative and a display of zeros and ones. *)
Definition wf (s : CPU.t) : Prop :=
  length (CPU.v s) = 16%nat /\ length (CPU.memory s) = 4096%nat /\
  Forall byte (CPU.v s) /\ Forall byte (CPU.memory s) /\
  byte (CPU.delayTimer s) /\ byte (CPU.soundTimer s) /\
  0 <= CPU.i s /\ binary (Renderer.display (CPU.renderer s)).

End Inv.

(** * Properties *)

Import CPU.

(** ** Registers: reads after writes *)
Section Registers.

Implicit Types (s : CPU.t) (x y a : Z).

Lemma length_setV s x a : length (v (setV s x a)) = length (v s).
Proof.
  unfold setV, JS.set; simpl.
  destruct (0 <=? x); [apply length_insert | reflexivity].
Qed.

Lemma getV_setV_eq s x a :
  length (v s) = 16%nat -> 0 <= x < 16 -> getV (setV s x a) x = a mod 256.
Proof.
  intros Hlen Hx. unfold getV, setV, JS.get, JS.set; simpl.
  destruct (Z.leb_spec 0 x); [|lia].
  rewrite list_lookup_insert_eq by lia. reflexivity.
Qed.

Lemma getV_setV_ne s x y a : x <> y -> getV (setV s x a) y = getV s y.
Proof.
  intros Hne. unfold getV, setV, JS.get, JS.set; simpl.
  destruct (Z.leb_spec 0 x), (Z.leb_spec 0 y); try reflexivity.
  rewrite list_lookup_insert_ne by lia. reflexivity.
Qed.

Lemma getV_skip s x : getV (skip s) x = getV s x.
Proof. reflexivity. Qed.

End Registers.

(** ** Decoding *)
Section Decoding.

(** [opcode & 0xF000] keeps the bits 12 to 15 in place. *)
Lemma land_0xF000_shift opcode :
  Z.land opcode 0xF000 = Z.shiftl (Z.land (Z.shiftr opcode 12) 0xF) 12.
Proof.
  change 0xF000 with (Z.shiftl (Z.ones 4) 12). change 0xF with (Z.ones 4).
  apply Z.bits_inj'. intros m Hm.
  rewrite Z.land_spec, !Z.shiftl_spec, Z.land_spec by assumption.
  destruct (Z.ltb_spec m 12) as [Hlow | Hhigh].
  - rewrite !(Z.testbit_neg_r _ (m - 12)) by lia. apply andb_false_r.
  - rewrite Z.shiftr_spec by lia. do 3 f_equal. lia.
Qed.

Lemma land_0xF000_cases opcode :
  exists k : nat, (k < 16)%nat /\ Z.land opcode 0xF000 = Z.of_nat k * 0x1000.
Proof.
  exists (Z.to_nat (Z.land (Z.shiftr opcode 12) 0xF)).
  assert (Hr : 0 <= Z.land (Z.shiftr opcode 12) 0xF < 16).
  { change 0xF with (Z.ones 4). rewrite Z.land_ones by lia.
    apply Z.mod_pos_bound. lia. }
  split; [lia|].
  rewrite Z2Nat.id by lia. rewrite land_0xF000_shift.
  apply Z.shiftl_mul_pow2. lia.
Qed.

Lemma opX_range opcode : 0 <= opX opcode < 16.
Proof.
  unfold opX. rewrite Z.shiftr_land. change (Z.shiftr 0x0F00 8) with (Z.ones 4).
  rewrite Z.land_ones by lia. apply Z.mod_pos_bound. lia.
Qed.

Lemma opY_range opcode : 0 <= opY opcode < 16.
Proof.
  unfold opY. rewrite Z.shiftr_land. change (Z.shiftr 0x00F0 4) with (Z.ones 4).
  rewrite Z.land_ones by lia. apply Z.mod_pos_bound. lia.
Qed.

End Decoding.

(** The outer [switch] has a case for each of the sixteen values of
    [opcode & 0xF000], so its [default] branch is never taken. *)
Lemma executeInstruction_never_throws isKeyPressed u opcode s :
  exists s', executeInstruction isKeyPressed u opcode s = Ok s'.
Proof.
  destruct (land_0xF000_cases opcode) as (k & Hk & Hland).
  unfold executeInstruction. rewrite Hland. clear Hland.
  do 16 (destruct k as [|k];
         [ cbv beta iota zeta delta [Z.of_nat Pos.of_succ_nat Pos.succ Z.mul Pos.mul Pos.add];
           repeat match goal with
                  | |- context [match ?z with _ => _ end] => destruct z
                  end; eauto
         | ]).
  lia.
Qed.

(** ** Every register pair has its opcode *)

Lemma land_0xF000_div opcode :
  Z.land opcode 0xF000 = (opcode / 0x1000) mod 16 * 0x1000.
Proof.
  rewrite land_0xF000_shift. change 0xF with (Z.ones 4).
  rewrite Z.land_ones, Z.shiftr_div_pow2, Z.shiftl_mul_pow2 by lia.
  reflexivity.
Qed.

Lemma opcode_fields c x y n :
  0 <= c < 16 -> 0 <= x < 16 -> 0 <= y < 16 -> 0 <= n < 16 ->
  let opcode := c * 0x1000 + x * 0x100 + y * 0x10 + n in
  Z.land opcode 0xF000 = c * 0x1000 /\
  opX opcode = x /\ opY opcode = y /\
  Z.land opcode 0xF = n /\ Z.land opcode 0xFF = y * 0x10 + n.
Proof.
  intros Hc Hx Hy Hn opcode.
  rewrite land_0xF000_div. unfold opX, opY.
  rewrite !Z.shiftr_land.
  change (Z.shiftr 0x0F00 8) with (Z.ones 4).
  change (Z.shiftr 0x00F0 4) with (Z.ones 4).
  change 0xF with (Z.ones 4). change 0xFF with (Z.ones 8).
  rewrite !Z.land_ones, !Z.shiftr_div_pow2 by lia.
  change (2 ^ 4) with 16. change (2 ^ 8) with 256.
  unfold opcode. repeat split; Z.div_mod_to_equations; lia.
Qed.

(** ** Dispatch: which branch an opcode pattern selects *)
Section Dispatch.

Variables (isKeyPressed : Z -> bool) (u : JS.unit_double).
Implicit Types (s : CPU.t) (opcode : Z).

Local Ltac dispatch :=
  intros; unfold executeInstruction;
  repeat match goal with
         | H : Z.land _ _ = _ |- _ => rewrite H; clear H
         end;
  reflexivity.

Lemma exec_CLS s :
  executeInstruction isKeyPressed u 0x00E0 s
  = Ok (set_renderer (skip s) (Renderer.clear (renderer s))).
Proof. reflexivity. Qed.

Lemma exec_RET s :
  executeInstruction isKeyPressed u 0x00EE s = Ok (RET (skip s)).
Proof. reflexivity. Qed.

Lemma exec_CALL opcode s :
  Z.land opcode 0xF000 = 0x2000 ->
  executeInstruction isKeyPressed u opcode s = Ok (CALL opcode (skip s)).
Proof. dispatch. Qed.

Lemma exec_ADD_xy opcode s :
  Z.land opcode 0xF000 = 0x8000 -> Z.land opcode 0xF = 0x4 ->
  executeInstruction isKeyPressed u opcode s
  = Ok (ADD_xy (opX opcode) (opY opcode) (skip s)).
Proof. dispatch. Qed.

Lemma exec_SUB_xy opcode s :
  Z.land opcode 0xF000 = 0x8000 -> Z.land opcode 0xF = 0x5 ->
  executeInstruction isKeyPressed u opcode s
  = Ok (SUB_xy (opX opcode) (opY opcode) (skip s)).
Proof. dispatch. Qed.

Lemma exec_SHR_x opcode s :
  Z.land opcode 0xF000 = 0x8000 -> Z.land opcode 0xF = 0x6 ->
  executeInstruction isKeyPressed u opcode s = Ok (SHR_x (opX opcode) (skip s)).
Proof. dispatch. Qed.

Lemma exec_SHL_x opcode s :
  Z.land opcode 0xF000 = 0x8000 -> Z.land opcode 0xF = 0xE ->
  executeInstruction isKeyPressed u opcode s = Ok (SHL_x (opX opcode) (skip s)).
Proof. dispatch. Qed.

Lemma exec_RND opcode s :
  Z.land opcode 0xF000 = 0xC000 ->
  executeInstruction isKeyPressed u opcode s = Ok (RND u (opX opcode) opcode (skip s)).
Proof. dispatch. Qed.

Lemma exec_DRW opcode s :
  Z.land opcode 0xF000 = 0xD000 ->
  executeInstruction isKeyPressed u opcode s
  = Ok (fst (DRW (opX opcode) (opY opcode) opcode (skip s))).
Proof. dispatch. Qed.

Lemma exec_LD_I_Vx opcode s :
  Z.land opcode 0xF000 = 0xF000 -> Z.land opcode 0xFF = 0x55 ->
  executeInstruction isKeyPressed u opcode s = Ok (LD_I_Vx (opX opcode) (skip s)).
Proof. dispatch. Qed.

Lemma exec_LD_Vx_I opcode s :
  Z.land opcode 0xF000 = 0xF000 -> Z.land opcode 0xFF = 0x65 ->
  executeInstruction isKeyPressed u opcode s = Ok (LD_Vx_I (opX opcode) (skip s)).
Proof. dispatch. Qed.

End Dispatch.

(** ** Arithmetic instructions *)

Ltac regs :=
  repeat match goal with
         | |- context [length (v (setV _ _ _))] => rewrite length_setV
         | |- context [getV (skip _) _] => rewrite getV_skip
         | |- context [getV (setV ?s ?x ?a) ?y] =>
             first [ rewrite (getV_setV_ne s x y a) by lia
                   | rewrite (getV_setV_eq s x a)
                       by (rewrite ?length_setV; simpl; lia) ]
         end.

Lemma ADD_xy_regs x y s :
  length (v s) = 16%nat -> 0 <= x < 16 -> x <> 0xF ->
  getV (ADD_xy x y s) x = (getV s x + getV s y) mod 256 /\
  getV (ADD_xy x y s) 0xF = (if 0xFF <? getV s x + getV s y then 1 else 0).
Proof.
  intros Hlen Hx Hne. unfold ADD_xy.
  destruct (0xFF <? getV s x + getV s y); regs; auto.
Qed.

Lemma SUB_xy_regs x y s :
  length (v s) = 16%nat -> 0 <= x < 16 -> x <> 0xF -> y <> 0xF ->
  getV (SUB_xy x y s) x = (getV s x - getV s y) mod 256 /\
  getV (SUB_xy x y s) 0xF = (if getV s y <? getV s x then 1 else 0).
Proof.
  intros Hlen Hx Hnx Hny. unfold SUB_xy. regs.
  destruct (getV s y <? getV s x); regs; auto. 
Qed.

Lemma SHR_x_regs x s :
  length (v s) = 16%nat -> 0 <= x < 16 -> x <> 0xF -> 0 <= getV s x < 256 ->
  getV (SHR_x x s) 0xF = Z.land (getV s x) 1 /\
  getV (SHR_x x s) x = Z.shiftr (getV s x) 1.
Proof.
  intros Hlen Hx Hne Ha. unfold SHR_x. regs.
  assert (Hlsb : Z.land (getV s x) 1 = getV s x mod 2)
    by (change 1 with (Z.ones 1); rewrite Z.land_ones by lia; reflexivity).
  rewrite Hlsb. rewrite Z.shiftr_div_pow2 by lia. change (2 ^ 1) with 2.
  split; apply Z.mod_small.
  - pose proof (Z.mod_pos_bound (getV s x) 2). lia.
  - pose proof (Z.div_pos (getV s x) 2).
    assert (getV s x / 2 <= getV s x) by (apply Z.div_le_upper_bound; lia). lia.
Qed.

Lemma land_pow2 a n :
  0 <= n -> Z.land a (2 ^ n) = if Z.testbit a n then 2 ^ n else 0.
Proof.
  intros Hn. apply Z.bits_inj'. intros m Hm. rewrite Z.land_spec.
  destruct (Z.eq_dec m n) as [-> | Hne].
  - rewrite Z.pow2_bits_true by lia.
    destruct (Z.testbit a n); [rewrite Z.pow2_bits_true by lia | rewrite Z.bits_0];
      reflexivity.
  - rewrite Z.pow2_bits_false by lia. rewrite andb_false_r.
    destruct (Z.testbit a n); [rewrite Z.pow2_bits_false by lia | rewrite Z.bits_0];
      reflexivity.
Qed.

Lemma land_0x80 a : Z.land a 0x80 = if Z.testbit a 7 then 128 else 0.
Proof. apply (land_pow2 a 7). lia. Qed.

Lemma land_0x1 a : Z.land a 0x1 = if Z.testbit a 0 then 1 else 0.
Proof. apply (land_pow2 a 0). lia. Qed.

Lemma SHL_x_regs x s :
  length (v s) = 16%nat -> 0 <= x < 16 -> x <> 0xF ->
  getV (SHL_x x s) 0xF = Z.land (getV s x) 0x80 /\
  getV (SHL_x x s) x = Z.shiftl (getV s x) 1 mod 256.
Proof.
  intros Hlen Hx Hne. unfold SHL_x. regs. split; [|reflexivity].
  rewrite land_0x80. destruct (Z.testbit (getV s x) 7); reflexivity.
Qed.

(** C5, for [x] other than 0xF: for every such opcode 8xy4, with [a] in
    [Vx] and [b] in [Vy], ADD Vx, Vy stores [(a + b) mod 256] in [Vx] and
    sets [VF] to 1 if [a + b] exceeds 255 and to 0 otherwise. *)
Theorem ADD_Vx_Vy_sum_and_carry isKeyPressed u opcode s a b :
  Z.land opcode 0xF000 = 0x8000 -> Z.land opcode 0xF = 0x4 ->
  length (v s) = 16%nat ->
  opX opcode <> 0xF ->
  getV s (opX opcode) = a -> getV s (opY opcode) = b ->
  exists s', executeInstruction isKeyPressed u opcode s = Ok s' /\
    getV s' (opX opcode) = (a + b) mod 256 /\
    getV s' 0xF = (if 255 <? a + b then 1 else 0).
Proof.
  intros Hop Hlow Hlen Hne <- <-.
  rewrite exec_ADD_xy by assumption. eexists; split; [reflexivity|].
  pose proof (opX_range opcode).
  destruct (ADD_xy_regs (opX opcode) (opY opcode) (skip s)) as [Hx Hf]; auto.
Qed.

(** The opcode 0x8014 (ADD V0, V1) with 10 in V0 and 5 in V1. *)
Lemma ADD_Vx_Vy_sum_and_carry_witness :
  exists s',
    executeInstruction Chip8.noKey Chip8.zero 0x8014
      (setV (setV Chip8.cpu 0 10) 1 5) = Ok s' /\
    getV s' 0 = 15 /\ getV s' 0xF = 0.
Proof.
  apply (ADD_Vx_Vy_sum_and_carry Chip8.noKey Chip8.zero 0x8014
           (setV (setV Chip8.cpu 0 10) 1 5) 10 5);
    first [reflexivity | discriminate].
Defined.

(** C5 does not hold when [x] is 0xF: with 200 in VF and 100 in V0,
    opcode 0x8F04 leaves 44 in VF (the low byte of the sum is stored
    last), not the carry 1. *)
Lemma ADD_carry_overwritten_when_x_is_F :
  ~ (forall isKeyPressed u opcode s a b,
        Z.land opcode 0xF000 = 0x8000 -> Z.land opcode 0xF = 0x4 ->
        length (v s) = 16%nat ->
        getV s (opX opcode) = a -> getV s (opY opcode) = b ->
        0 <= a < 256 -> 0 <= b < 256 ->
        exists s', executeInstruction isKeyPressed u opcode s = Ok s' /\
          getV s' (opX opcode) = (a + b) mod 256 /\
          getV s' 0xF = (if 255 <? a + b then 1 else 0)).
Proof.
  intros H.
  destruct (H Chip8.noKey Chip8.zero 0x8F04
              (setV (setV Chip8.cpu 0 100) 0xF 200) 200 100)
    as (s' & Hexec & _ & HF); try reflexivity; try lia.
  vm_compute in Hexec. injection Hexec as <-.
  vm_compute in HF. discriminate HF.
Qed.

(** C6, for [x] and [y] other than 0xF: for every such opcode 8xy5,
    with [a] in [Vx] and [b] in [Vy], SUB Vx, Vy stores
    [(a - b) mod 256] in [Vx] and sets [VF] to 1 if [a > b] and to 0
    otherwise. *)
Theorem SUB_Vx_Vy_difference_and_flag isKeyPressed u opcode s a b :
  Z.land opcode 0xF000 = 0x8000 -> Z.land opcode 0xF = 0x5 ->
  length (v s) = 16%nat ->
  opX opcode <> 0xF -> opY opcode <> 0xF ->
  getV s (opX opcode) = a -> getV s (opY opcode) = b ->
  exists s', executeInstruction isKeyPressed u opcode s = Ok s' /\
    getV s' (opX opcode) = (a - b) mod 256 /\
    getV s' 0xF = (if b <? a then 1 else 0).
Proof.
  intros Hop Hlow Hlen Hnx Hny <- <-.
  rewrite exec_SUB_xy by assumption. eexists; split; [reflexivity|].
  pose proof (opX_range opcode).
  destruct (SUB_xy_regs (opX opcode) (opY opcode) (skip s)) as [Hx Hf]; auto.
Qed.

(** The opcode 0x8015 (SUB V0, V1) with 3 in V0 and 5 in V1: the
    difference wraps to 254 and the flag is 0. *)
Lemma SUB_Vx_Vy_difference_and_flag_witness :
  exists s',
    executeInstruction Chip8.noKey Chip8.zero 0x8015
      (setV (setV Chip8.cpu 0 3) 1 5) = Ok s' /\
    getV s' 0 = 254 /\ getV s' 0xF = 0.
Proof.
  apply (SUB_Vx_Vy_difference_and_flag Chip8.noKey Chip8.zero 0x8015
           (setV (setV Chip8.cpu 0 3) 1 5) 3 5);
    first [reflexivity | discriminate].
Defined.

(** C6 does not hold when [x] is 0xF: with 5 in VF and 3 in V0,
    opcode 0x8F05 clears VF before it reads it, and leaves
    [(0 - 3) mod 256 = 253] in VF: neither the difference 2 nor the
    flag 1. *)
Lemma SUB_operand_cleared_when_x_is_F :
  ~ (forall isKeyPressed u opcode s a b,
        Z.land opcode 0xF000 = 0x8000 -> Z.land opcode 0xF = 0x5 ->
        length (v s) = 16%nat ->
        getV s (opX opcode) = a -> getV s (opY opcode) = b ->
        0 <= a < 256 -> 0 <= b < 256 ->
        exists s', executeInstruction isKeyPressed u opcode s = Ok s' /\
          getV s' (opX opcode) = (a - b) mod 256 /\
          getV s' 0xF = (if b <? a then 1 else 0)).
Proof.
  intros H.
  destruct (H Chip8.noKey Chip8.zero 0x8F05
              (setV (setV Chip8.cpu 0 3) 0xF 5) 5 3)
    as (s' & Hexec & _ & HF); try reflexivity; try lia.
  vm_compute in Hexec. injection Hexec as <-.
  vm_compute in HF. discriminate HF.
Qed.

(** The same instruction with [y] equal to 0xF subtracts the flag it
    has just computed instead of the old VF: with 5 in V0 and 3 in VF,
    opcode 0x80F5 leaves 4 in V0. *)
Example SUB_with_y_F :
  exists s',
    executeInstruction Chip8.noKey Chip8.zero 0x80F5
      (setV (setV Chip8.cpu 0 5) 0xF 3) = Ok s' /\
    getV s' 0 = 4 /\ getV s' 0xF = 1.
Proof. eexists. split; [reflexivity|]. split; reflexivity. Qed.

(** C6, the code when a register of the instruction is VF: 8xy5 clears
    and sets VF before it reads [Vx] and [Vy] for the subtraction, so
    the value that VF held plays no part.  With [y = 0xF] the flag just
    computed is subtracted from [Vx]; with [x = 0xF] the subtrahend is
    taken from a cleared VF. *)
Theorem SUB_reads_VF_after_writing_it isKeyPressed u opcode s a b :
  Z.land opcode 0xF000 = 0x8000 -> Z.land opcode 0xF = 0x5 ->
  length (v s) = 16%nat ->
  getV s (opX opcode) = a -> getV s (opY opcode) = b ->
  0 <= a < 256 -> 0 <= b < 256 ->
  exists s', executeInstruction isKeyPressed u opcode s = Ok s' /\
    (opX opcode <> 0xF -> opY opcode = 0xF ->
     getV s' 0xF = (if 0 <? a then 1 else 0) /\
     getV s' (opX opcode) = a - (if 0 <? a then 1 else 0)) /\
    (opX opcode = 0xF -> opY opcode <> 0xF -> getV s' 0xF = (0 - b) mod 256) /\
    (opX opcode = 0xF -> opY opcode = 0xF -> getV s' 0xF = 0).
Proof.
  intros Hop Hlow Hlen <- <- Ha Hb.
  rewrite exec_SUB_xy by assumption. eexists; split; [reflexivity|].
  pose proof (opX_range opcode) as Hx.
  rewrite <- (getV_skip s (opX opcode)) in Ha.
  rewrite <- (getV_skip s (opY opcode)) in Hb.
  assert (Hlen' : length (v (skip s)) = 16%nat) by exact Hlen.
  rewrite <- !(getV_skip s).
  generalize dependent (skip s). clear s Hlen. intros s Ha Hb Hlen.
  unfold SUB_xy. split; [|split].
  - intros Hnx ->. regs. change (0 mod 256) with 0.
    destruct (Z.ltb_spec 0 (getV s (opX opcode))); regs.
    + change (1 mod 256) with 1. split; [reflexivity|]. apply Z.mod_small. lia.
    + change (0 mod 256) with 0. split; [reflexivity|]. apply Z.mod_small. lia.
  - intros -> Hny. regs. change (0 mod 256) with 0.
    destruct (Z.ltb_spec (getV s (opY opcode)) 0); [lia|]. regs. reflexivity.
  - intros -> ->. regs. change (0 mod 256 <? 0 mod 256) with false. cbv iota.
    regs. reflexivity.
Qed.

(** SUB V0, VF (0x80F5) with 5 in V0 and 3 in VF leaves 4 in V0, where
    the difference is 2; SUB VF, V0 (0x8F05) with 4 in VF and 3 in V0
    leaves 253 in VF, where the difference and the flag are both 1. *)
Lemma SUB_reads_VF_after_writing_it_witness :
  (exists s',
      executeInstruction Chip8.noKey Chip8.zero 0x80F5
        (setV (setV Chip8.cpu 0 5) 0xF 3) = Ok s' /\
      getV s' 0 = 4 /\ getV s' 0xF = 1 /\ (5 - 3) mod 256 = 2) /\
  (exists s',
      executeInstruction Chip8.noKey Chip8.zero 0x8F05
        (setV (setV Chip8.cpu 0 3) 0xF 4) = Ok s' /\
      getV s' 0xF = 253 /\
      (4 - 3) mod 256 = 1 /\ (if 3 <? 4 then 1 else 0) = 1).
Proof.
  split.
  - destruct (SUB_reads_VF_after_writing_it Chip8.noKey Chip8.zero 0x80F5
                (setV (setV Chip8.cpu 0 5) 0xF 3) 5 3)
      as (s' & He & Hy & _); try reflexivity; try lia.
    exists s'. destruct Hy as [HF H0]; [discriminate | reflexivity |].
    split; [exact He|]. split; [exact H0|]. split; [exact HF | reflexivity].
  - destruct (SUB_reads_VF_after_writing_it Chip8.noKey Chip8.zero 0x8F05
                (setV (setV Chip8.cpu 0 3) 0xF 4) 4 3)
      as (s' & He & _ & Hx & _); try reflexivity; try lia.
    exists s'. split; [exact He|].
    split; [exact (Hx eq_refl ltac:(discriminate)) | split; reflexivity].
Defined.

(** C7, for [x] other than 0xF: for every such opcode 8xy6 or 8xyE and
    every 8-bit [a] in [Vx]: SHR stores the least-significant bit of [a]
    in VF and [a >> 1] in [Vx]; SHL stores [a & 0x80], which is 0 or
    128, in VF and [(a << 1) mod 256] in [Vx]. *)
Theorem shifts_flag_and_result :
  (forall isKeyPressed u opcode s a,
      Z.land opcode 0xF000 = 0x8000 -> Z.land opcode 0xF = 0x6 ->
      length (v s) = 16%nat -> opX opcode <> 0xF ->
      getV s (opX opcode) = a -> 0 <= a < 256 ->
      exists s', executeInstruction isKeyPressed u opcode s = Ok s' /\
        getV s' 0xF = (if Z.testbit a 0 then 1 else 0) /\
        getV s' (opX opcode) = Z.shiftr a 1) /\
  (forall isKeyPressed u opcode s a,
      Z.land opcode 0xF000 = 0x8000 -> Z.land opcode 0xF = 0xE ->
      length (v s) = 16%nat -> opX opcode <> 0xF ->
      getV s (opX opcode) = a -> 0 <= a < 256 ->
      exists s', executeInstruction isKeyPressed u opcode s = Ok s' /\
        getV s' 0xF = Z.land a 0x80 /\
        getV s' 0xF = (if Z.testbit a 7 then 128 else 0) /\
        getV s' (opX opcode) = Z.shiftl a 1 mod 256).
Proof.
  split; intros k u opcode s a Hop Hlow Hlen Hne <- Ha;
    pose proof (opX_range opcode).
  - rewrite exec_SHR_x by assumption. eexists; split; [reflexivity|].
    destruct (SHR_x_regs (opX opcode) (skip s)) as [Hf Hx]; auto.
    rewrite Hf, Hx, getV_skip. split; [apply land_0x1|reflexivity].
  - rewrite exec_SHL_x by assumption. eexists; split; [reflexivity|].
    destruct (SHL_x_regs (opX opcode) (skip s)) as [Hf Hx]; auto.
    rewrite Hf, Hx, getV_skip. rewrite <- land_0x80. auto.
Qed.

(** SHR V0 with 5 in V0 and SHL V0 with 0x81 in V0. *)
Lemma shifts_flag_and_result_witness :
  (exists s',
      executeInstruction Chip8.noKey Chip8.zero 0x8006 (setV Chip8.cpu 0 5) = Ok s' /\
      getV s' 0xF = 1 /\ getV s' 0 = 2) /\
  (exists s',
      executeInstruction Chip8.noKey Chip8.zero 0x800E (setV Chip8.cpu 0 0x81) = Ok s' /\
      getV s' 0xF = 128 /\ getV s' 0xF = 128 /\ getV s' 0 = 2).
Proof.
  split.
  - apply (proj1 shifts_flag_and_result Chip8.noKey Chip8.zero 0x8006
             (setV Chip8.cpu 0 5) 5);
      first [reflexivity | discriminate | lia].
  - apply (proj2 shifts_flag_and_result Chip8.noKey Chip8.zero 0x800E
             (setV Chip8.cpu 0 0x81) 0x81);
      first [reflexivity | discriminate | lia].
Defined.

(** C7 does not hold when [x] is 0xF: with 3 in VF, opcode 0x8F06
    stores the bit 1 in VF and then shifts that bit out, leaving 0 in
    VF, where both the flag and [3 >> 1] are 1. *)
Lemma SHR_flag_lost_when_x_is_F :
  ~ (forall isKeyPressed u opcode s a,
        Z.land opcode 0xF000 = 0x8000 -> Z.land opcode 0xF = 0x6 ->
        length (v s) = 16%nat ->
        getV s (opX opcode) = a -> 0 <= a < 256 ->
        exists s', executeInstruction isKeyPressed u opcode s = Ok s' /\
          getV s' 0xF = (if Z.testbit a 0 then 1 else 0) /\
          getV s' (opX opcode) = Z.shiftr a 1).
Proof.
  intros H.
  destruct (H Chip8.noKey Chip8.zero 0x8F06 (setV Chip8.cpu 0xF 3) 3)
    as (s' & Hexec & HF & _); try reflexivity; try lia.
  vm_compute in Hexec. injection Hexec as <-.
  vm_compute in HF. discriminate HF.
Qed.

(** C7, the code when [x] is 0xF: 8xy6 and 8xyE write the flag into VF
    and then shift VF itself, so the flag is shifted out: VF ends as 0
    whatever it held, also where the flag and the shifted value that
    the claim asks for are the same number, as for SHR with 3 in VF
    (both 1) and for SHL with 0xC0 in VF (both 0x80). *)
Theorem shifts_lose_the_flag_when_x_is_F isKeyPressed u opcode s :
  Z.land opcode 0xF000 = 0x8000 ->
  Z.land opcode 0xF = 0x6 \/ Z.land opcode 0xF = 0xE ->
  length (v s) = 16%nat -> opX opcode = 0xF ->
  exists s', executeInstruction isKeyPressed u opcode s = Ok s' /\
    getV s' 0xF = 0.
Proof.
  intros Hop [Hlow | Hlow] Hlen Hx.
  - rewrite exec_SHR_x by assumption. eexists; split; [reflexivity|].
    rewrite Hx. unfold SHR_x. regs. rewrite land_0x1.
    destruct (Z.testbit (getV s 15) 0); reflexivity.
  - rewrite exec_SHL_x by assumption. eexists; split; [reflexivity|].
    rewrite Hx. unfold SHL_x. regs. rewrite land_0x80.
    destruct (Z.testbit (getV s 15) 7); reflexivity.
Qed.

(** SHR VF (0x8F06) with 3 in VF, where the bit shifted out and
    [3 >> 1] are both 1, and SHL VF (0x8F0E) with 0xC0 in VF, where
    [0xC0 & 0x80] and [(0xC0 << 1) mod 256] are both 0x80: VF ends as 0
    in both. *)
Lemma shifts_lose_the_flag_when_x_is_F_witness :
  (exists s',
      executeInstruction Chip8.noKey Chip8.zero 0x8F06 (setV Chip8.cpu 0xF 3) = Ok s' /\
      getV s' 0xF = 0 /\
      (if Z.testbit 3 0 then 1 else 0) = 1 /\ Z.shiftr 3 1 = 1) /\
  (exists s',
      executeInstruction Chip8.noKey Chip8.zero 0x8F0E (setV Chip8.cpu 0xF 0xC0) = Ok s' /\
      getV s' 0xF = 0 /\
      Z.land 0xC0 0x80 = 0x80 /\ Z.shiftl 0xC0 1 mod 256 = 0x80).
Proof.
  split.
  - destruct (shifts_lose_the_flag_when_x_is_F Chip8.noKey Chip8.zero 0x8F06
                (setV Chip8.cpu 0xF 3) eq_refl (or_introl eq_refl) eq_refl eq_refl)
      as (s' & He & HF).
    exists s'. split; [exact He|]. split; [exact HF|]. split; reflexivity.
  - destruct (shifts_lose_the_flag_when_x_is_F Chip8.noKey Chip8.zero 0x8F0E
                (setV Chip8.cpu 0xF 0xC0) eq_refl (or_intror eq_refl) eq_refl eq_refl)
      as (s' & He & HF).
    exists s'. split; [exact He|]. split; [exact HF|]. split; reflexivity.
Defined.

(** ** Loops *)

Lemma for_loop_ind {S : Type} (P : S -> Prop) (body : Z -> S -> S) n k s :
  P s -> (forall k s, P s -> P (body k s)) -> P (for_loop n k body s).
Proof.
  intros Hs Hbody. revert k s Hs.
  induction n as [|n IH]; intros k s Hs; simpl; auto.
Qed.

Lemma LD_I_Vx_control x s : same_control s (LD_I_Vx x s).
Proof.
  unfold LD_I_Vx. apply for_loop_ind.
  - repeat split.
  - intros k s' H. exact H.
Qed.

Lemma LD_Vx_I_control x s : same_control s (LD_Vx_I x s).
Proof.
  unfold LD_Vx_I. apply for_loop_ind.
  - repeat split.
  - intros k s' H. exact H.
Qed.

(** C10: the block store Fx55 and the block load Fx65 leave I, the
    stack, both timers and the paused flag as they were, and PC is only
    advanced by 2. *)
Theorem block_copy_preserves_I_and_control isKeyPressed u opcode s :
  Z.land opcode 0xF000 = 0xF000 ->
  Z.land opcode 0xFF = 0x55 \/ Z.land opcode 0xFF = 0x65 ->
  exists s', executeInstruction isKeyPressed u opcode s = Ok s' /\
    i s' = i s /\ pc s' = JS.add (pc s) 2 /\ stack s' = stack s /\
    delayTimer s' = delayTimer s /\ soundTimer s' = soundTimer s /\
    paused s' = paused s.
Proof.
  intros Hop [Hlow | Hlow].
  - rewrite exec_LD_I_Vx by assumption. eexists; split; [reflexivity|].
    apply (LD_I_Vx_control (opX opcode) (skip s)).
  - rewrite exec_LD_Vx_I by assumption. eexists; split; [reflexivity|].
    apply (LD_Vx_I_control (opX opcode) (skip s)).
Qed.

(** Opcodes 0xF355 and 0xF365 on a machine with I = 0x300. *)
Lemma block_copy_preserves_I_and_control_witness :
  (exists s', executeInstruction Chip8.noKey Chip8.zero 0xF355
                (set_i Chip8.cpu 0x300) = Ok s' /\
     i s' = 0x300 /\ pc s' = JS.Num 0x202 /\ stack s' = [] /\
     delayTimer s' = 0 /\ soundTimer s' = 0 /\ paused s' = false) /\
  (exists s', executeInstruction Chip8.noKey Chip8.zero 0xF365
                (set_i Chip8.cpu 0x300) = Ok s' /\
     i s' = 0x300 /\ pc s' = JS.Num 0x202 /\ stack s' = [] /\
     delayTimer s' = 0 /\ soundTimer s' = 0 /\ paused s' = false).
Proof.
  split.
  - apply (block_copy_preserves_I_and_control Chip8.noKey Chip8.zero 0xF355
             (set_i Chip8.cpu 0x300)); [reflexivity | left; reflexivity].
  - apply (block_copy_preserves_I_and_control Chip8.noKey Chip8.zero 0xF365
             (set_i Chip8.cpu 0x300)); [reflexivity | right; reflexivity].
Defined.

(** ** Clear, call and return *)

(** C3, without the exception: 00E0 leaves no pixel lit; 00EE on a non-empty stack
    pops its top into PC, so that after a 2nnn call it restores the
    address that the call pushed (the one after the call); 00EE on an
    empty stack raises nothing and leaves [undefined] in PC. *)
Theorem CLS_and_RET :
  (forall isKeyPressed u s,
      exists s', executeInstruction isKeyPressed u 0x00E0 s = Ok s' /\
        Renderer.display (renderer s') = ∅ /\
        forall loc, Renderer.lit (renderer s') loc = false) /\
  (forall isKeyPressed u s top rest,
      stack s = top :: rest ->
      exists s', executeInstruction isKeyPressed u 0x00EE s = Ok s' /\
        pc s' = top /\ stack s' = rest) /\
  (forall isKeyPressed u opcode s,
      Z.land opcode 0xF000 = 0x2000 ->
      exists s1, executeInstruction isKeyPressed u opcode s = Ok s1 /\
        pc s1 = JS.Num (Z.land opcode 0xFFF) /\
        stack s1 = JS.add (pc s) 2 :: stack s /\
        forall isKeyPressed' u' s2,
          stack s2 = stack s1 ->
          exists s3, executeInstruction isKeyPressed' u' 0x00EE s2 = Ok s3 /\
            pc s3 = JS.add (pc s) 2 /\ stack s3 = stack s) /\
  (forall isKeyPressed u s,
      stack s = [] ->
      exists s', executeInstruction isKeyPressed u 0x00EE s = Ok s' /\
        pc s' = JS.Undefined /\ stack s' = []).
Proof.
  repeat split.
  - intros k u s. rewrite exec_CLS. eexists; split; [reflexivity|].
    split; [reflexivity|]. intros loc. unfold Renderer.lit; simpl.
    rewrite lookup_empty. reflexivity.
  - intros k u s top rest Hst. rewrite exec_RET. eexists; split; [reflexivity|].
    unfold RET; simpl. rewrite Hst. split; reflexivity.
  - intros k u opcode s Hop. rewrite exec_CALL by assumption.
    eexists; split; [reflexivity|]. split; [reflexivity|]. split; [reflexivity|].
    intros k' u' s2 Hst. rewrite exec_RET. eexists; split; [reflexivity|].
    unfold RET; simpl. rewrite Hst; simpl. split; reflexivity.
  - intros k u s Hst. rewrite exec_RET. eexists; split; [reflexivity|].
    unfold RET; simpl. rewrite Hst. split; [reflexivity | assumption].
Qed.

(** A call 0x2ABC at 0x200 followed by a return at 0xABC, and a return
    on the empty stack of a new machine. *)
Lemma CLS_and_RET_witness :
  (exists s', executeInstruction Chip8.noKey Chip8.zero 0x00EE
                (set_stack Chip8.cpu [JS.Num 0x202]) = Ok s' /\
     pc s' = JS.Num 0x202 /\ stack s' = []) /\
  (exists s1, executeInstruction Chip8.noKey Chip8.zero 0x2ABC Chip8.cpu = Ok s1 /\
     pc s1 = JS.Num 0xABC /\
     stack s1 = [JS.Num 0x202] /\
     forall isKeyPressed' u' s2,
       stack s2 = stack s1 ->
       exists s3, executeInstruction isKeyPressed' u' 0x00EE s2 = Ok s3 /\
         pc s3 = JS.Num 0x202 /\ stack s3 = []) /\
  (exists s', executeInstruction Chip8.noKey Chip8.zero 0x00EE Chip8.cpu = Ok s' /\
     pc s' = JS.Undefined /\ stack s' = []).
Proof.
  pose proof CLS_and_RET as (_ & Hret & Hcall & Hempty).
  split; [|split].
  - apply (Hret Chip8.noKey Chip8.zero (set_stack Chip8.cpu [JS.Num 0x202])).
    reflexivity.
  - apply (Hcall Chip8.noKey Chip8.zero 0x2ABC Chip8.cpu). reflexivity.
  - apply (Hempty Chip8.noKey Chip8.zero Chip8.cpu). reflexivity.
Defined.

(** C3 does not hold on the empty stack: no exception is raised. *)
Lemma RET_on_empty_stack_does_not_throw :
  ~ (forall isKeyPressed u s,
        stack s = [] ->
        exists e, executeInstruction isKeyPressed u 0x00EE s = Throw e).
Proof.
  intros H.
  destruct (H Chip8.noKey Chip8.zero Chip8.cpu eq_refl) as (e & He).
  discriminate He.
Qed.

(** ** The frame cycle *)

Lemma cycleLoop_paused isKeyPressed rnd n k s :
  paused s = true -> cycleLoop isKeyPressed rnd n k s = Ok s.
Proof.
  intros Hp. revert k. induction n as [|n IH]; intros k; simpl.
  - reflexivity.
  - rewrite Hp. apply IH.
Qed.

(** C4, with the timers frozen: in a frame cycle run while [paused] is true no
    instruction is executed and the timers are not updated (the update
    is run only when the machine is not paused); the sound query and the
    rendering still take place. *)
Theorem cycle_while_paused isKeyPressed rnd s :
  paused s = true ->
  exists s', cycle isKeyPressed rnd s = Ok s' /\
    memory s' = memory s /\ v s' = v s /\ i s' = i s /\ pc s' = pc s /\
    stack s' = stack s /\ paused s' = true /\
    onNextKeyPress s' = onNextKeyPress s /\
    Renderer.display (renderer s') = Renderer.display (renderer s) /\
    delayTimer s' = delayTimer s /\ soundTimer s' = soundTimer s /\
    speaker s' = (if 0 <? soundTimer s
                  then Speaker.play (speaker s) 440
                  else Speaker.stop (speaker s)) /\
    renderer s' = Renderer.render (renderer s).
Proof.
  intros Hp. unfold cycle. rewrite cycleLoop_paused by assumption.
  rewrite Hp. eexists; split; [reflexivity|].
  unfold playSound. destruct (0 <? soundTimer s); simpl; repeat split; assumption.
Qed.

(** A paused machine whose delay timer is 5 and whose sound timer is 2:
    after the cycle both timers are as before and the tone is on. *)
Lemma cycle_while_paused_witness :
  exists s',
    cycle Chip8.noKey (fun _ => Chip8.zero)
      (set_soundTimer (set_delayTimer (set_paused Chip8.cpu true) 5) 2) = Ok s' /\
    delayTimer s' = 5 /\ soundTimer s' = 2 /\
    Speaker.oscillator (speaker s') = Some 440.
Proof.
  destruct (cycle_while_paused Chip8.noKey (fun _ => Chip8.zero)
              (set_soundTimer (set_delayTimer (set_paused Chip8.cpu true) 5) 2)
              eq_refl)
    as (s' & Hc & _ & _ & _ & _ & _ & _ & _ & _ & Hd & Hs & Hsp & _).
  exists s'. split; [exact Hc|]. split; [exact Hd|]. split; [exact Hs|].
  rewrite Hsp. reflexivity.
Defined.

(** C4 does not hold for the timers: a nonzero delay timer is not decremented by a
    cycle run while the machine is paused. *)
Lemma timers_frozen_while_paused :
  ~ (forall isKeyPressed rnd s,
        paused s = true -> 0 < delayTimer s ->
        exists s', cycle isKeyPressed rnd s = Ok s' /\
          delayTimer s' = delayTimer s - 1).
Proof.
  intros H.
  destruct (H Chip8.noKey (fun _ => Chip8.zero)
              (set_delayTimer (set_paused Chip8.cpu true) 5) eq_refl eq_refl)
    as (s' & Hc & Hd).
  destruct (cycle_while_paused Chip8.noKey (fun _ => Chip8.zero)
              (set_delayTimer (set_paused Chip8.cpu true) 5) eq_refl)
    as (s'' & Hc' & _ & _ & _ & _ & _ & _ & _ & _ & Hd' & _).
  rewrite Hc in Hc'. injection Hc' as <-.
  rewrite Hd' in Hd. discriminate Hd.
Qed.

(** ** Unknown opcodes *)

(** C1, the code at the word 0xFFFF: [executeInstruction] returns
    normally, having only advanced PC by 2.  For the program 0xFF, 0xFF
    the word fetched at PC = 0x200 is 0xFFFF, no exception is raised,
    and the whole frame cycle completes (the nine following words are
    0x0000, which match no case either). *)
Theorem opcode_FFFF_is_skipped_silently isKeyPressed u rnd :
  (forall s, executeInstruction isKeyPressed u 0xFFFF s = Ok (skip s)) /\
  pc (Chip8.init [0xFF; 0xFF]) = JS.Num 0x200 /\
  fetch (Chip8.init [0xFF; 0xFF]) = 0xFFFF /\
  exists s', cycle isKeyPressed rnd (Chip8.init [0xFF; 0xFF]) = Ok s' /\
             pc s' = JS.Num 0x214.
Proof.
  split; [reflexivity|]. split; [reflexivity|].
  split; [vm_compute; reflexivity|].
  eexists. split; [vm_compute; reflexivity|]. reflexivity.
Qed.

(** ** The display *)

(** [setPixel] returns true exactly when the cell it toggled is now off. *)
Lemma setPixel_returns_now_off r x y :
  snd (Renderer.setPixel r x y)
  = negb (Renderer.lit (fst (Renderer.setPixel r x y)) (Renderer.pixelLoc x y)).
Proof. reflexivity. Qed.

(** Coordinates at most one screen below the grid, or inside it, are
    wrapped as intended. *)
Lemma pixelLoc_wraps_near x y :
  -64 <= x < 64 -> -32 <= y < 32 ->
  Renderer.pixelLoc x y = x mod 64 + (y mod 32) * 64.
Proof.
  intros Hx Hy. unfold Renderer.pixelLoc, Renderer.cols, Renderer.rows.
  destruct (Z.ltb_spec 64 x); [lia|]. destruct (Z.ltb_spec 32 y); [lia|].
  destruct (Z.ltb_spec x 0), (Z.ltb_spec y 0);
    repeat match goal with
           | |- context [?a mod ?b] =>
               first [ rewrite (Z.mod_small a b) by lia
                     | replace (a mod b) with (a + b)
                         by (apply (Z.mod_unique a b (-1)); lia) ]
           end; reflexivity.
Qed.

(** The column 64 is taken for the column 0 of the next row. *)
Lemma pixelLoc_64_is_next_row y :
  0 <= y < 32 -> Renderer.pixelLoc 64 y = Renderer.pixelLoc 0 y + 64.
Proof.
  intros Hy. unfold Renderer.pixelLoc, Renderer.cols, Renderer.rows.
  destruct (Z.ltb_spec 32 y); [lia|]. destruct (Z.ltb_spec y 0); [lia|].
  simpl. lia.
Qed.

(** C2, the code at x = 64 (and at y = 32): the comparison [x > cols]
    lets 64 through, so the cell toggled is 64, which is the pixel of
    column 0 in the row below, and not the cell 0 that x = 0 toggles;
    [y = 32] selects the cell 2048, outside the grid. *)
Theorem setPixel_64_is_not_wrapped :
  Renderer.pixelLoc 64 0 = 64 /\ Renderer.pixelLoc 0 0 = 0 /\
  Renderer.pixelLoc 0 1 = 64 /\
  Renderer.pixelLoc 0 32 = 2048 /\
  Renderer.lit (fst (Renderer.setPixel Chip8.renderer 64 0)) 0 = false /\
  Renderer.lit (fst (Renderer.setPixel Chip8.renderer 64 0)) 64 = true /\
  Renderer.lit (fst (Renderer.setPixel Chip8.renderer 0 0)) 0 = true /\
  Renderer.lit (fst (Renderer.setPixel Chip8.renderer 0 0)) 64 = false.
Proof. repeat split; vm_compute; reflexivity. Qed.

(** ** The random byte *)

Lemma land_le_l a b : 0 <= a -> 0 <= b -> Z.land a b <= a.
Proof.
  intros Ha Hb.
  rewrite <- (Z2N.id a), <- (Z2N.id b) by assumption.
  rewrite <- N2Z.inj_land. apply N2Z.inj_le, N.land_le_l.
Qed.

Lemma land_0xFF_range a : 0 <= Z.land a 0xFF < 256.
Proof.
  change 0xFF with (Z.ones 8). rewrite Z.land_ones by lia.
  apply Z.mod_pos_bound. lia.
Qed.

(** Rounding to nearest moves a number by at most half of the last
    retained bit. *)
Lemma round53_bounds p :
  0 <= p ->
  0 <= JS.round53 p /\
  JS.round53 p <= p + (if Z.log2 p - 52 <=? 0 then 0 else 2 ^ (Z.log2 p - 53)).
Proof.
  intros Hp. unfold JS.round53.
  destruct (Z.leb_spec (Z.log2 p - 52) 0) as [He | He]; [lia|].
  set (e := Z.log2 p - 52) in *.
  assert (Hpow : 0 < 2 ^ e) by (apply Z.pow_pos_nonneg; lia).
  assert (Hh : 2 ^ e = 2 * 2 ^ (e - 1)).
  { rewrite <- Z.pow_succ_r by lia. f_equal. lia. }
  replace (Z.log2 p - 53) with (e - 1) by lia.
  pose proof (Z.div_mod p (2 ^ e) ltac:(lia)) as Hdm.
  pose proof (Z.mod_pos_bound p (2 ^ e) Hpow) as Hr.
  assert (Hq : 0 <= p / 2 ^ e) by (apply Z.div_pos; lia).
  set (q := p / 2 ^ e) in *. set (r := p mod 2 ^ e) in *.
  set (h := 2 ^ (e - 1)) in *.
  destruct (Z.ltb_spec h r) as [Hlt | Hge]; simpl.
  - split; nia.
  - destruct (Z.eqb_spec r h) as [Heq | Hneq]; simpl.
    + destruct (Z.odd q); split; nia.
    + split; nia.
Qed.

(** [Math.floor(Math.random() * 0xFF)] is at most 254. *)
Lemma floor_mul_0xFF_range u :
  JS.unit_double_ok u -> 0 <= JS.floor_mul u 0xFF <= 254.
Proof.
  intros (Hsc & [Hm0 Hm53] & Hm1). unfold JS.floor_mul.
  set (p := JS.mant u * 0xFF).
  assert (Hp : 0 <= p) by (unfold p; lia).
  destruct (round53_bounds p Hp) as [Hlo Hhi].
  assert (Hpow : 0 < 2 ^ JS.scale u) by (apply Z.pow_pos_nonneg; lia).
  assert (Hup : JS.round53 p < 255 * 2 ^ JS.scale u).
  { destruct (Z.leb_spec (Z.log2 p - 52) 0) as [He | He]; [unfold p in *; lia|].
    assert (Hp61 : p < 2 ^ 61) by (unfold p; lia).
    assert (Hppos : 0 < p).
    { destruct (Z.eq_dec p 0) as [E | E]; [rewrite E in He; simpl in He|]; lia. }
    assert (Hl : Z.log2 p < 61) by (apply Z.log2_lt_pow2; lia).
    assert (Hle : 2 ^ (Z.log2 p - 53) <= 2 ^ 7) by (apply Z.pow_le_mono_r; lia).
    change (2 ^ 7) with 128 in Hle. unfold p in *. lia. }
  split.
  - apply Z.div_pos; lia.
  - assert (JS.round53 p / 2 ^ JS.scale u < 255); [|lia].
    apply Z.div_lt_upper_bound; lia.
Qed.

(** On sample draws, among them the extreme ones, [round53] gives the
    floor that the Standard Library's binary64 product gives. *)
Example floor_mul_agrees_with_binary64 :
  forallb (fun u => JS.floor_mul_binary64 u 0xFF =? JS.floor_mul u 0xFF)
          Chip8.draws = true /\
  Forall JS.unit_double_ok Chip8.draws.
Proof.
  split; [vm_compute; reflexivity|].
  unfold Chip8.draws, JS.unit_double_ok.
  repeat constructor; simpl; try lia.
  all: assert (0 < 2 ^ 1074) by (apply Z.pow_pos_nonneg; lia); lia.
Qed.

(** C9, the code: Cxkk stores [r & kk] where
    [r = Math.floor(Math.random() * 0xFF)] lies between 0 and 254, so
    that 255 is never drawn and never stored. *)
Theorem RND_draw_is_at_most_254 isKeyPressed u opcode s :
  Z.land opcode 0xF000 = 0xC000 ->
  JS.unit_double_ok u ->
  length (v s) = 16%nat ->
  exists s', executeInstruction isKeyPressed u opcode s = Ok s' /\
    getV s' (opX opcode) = Z.land (JS.floor_mul u 0xFF) (Z.land opcode 0xFF) /\
    0 <= JS.floor_mul u 0xFF <= 254 /\
    getV s' (opX opcode) <> 255.
Proof.
  intros Hop Hu Hlen. rewrite exec_RND by assumption.
  eexists; split; [reflexivity|].
  pose proof (opX_range opcode) as Hx.
  pose proof (floor_mul_0xFF_range u Hu) as Hr.
  pose proof (land_0xFF_range opcode) as Hkk.
  pose proof (land_le_l (JS.floor_mul u 0xFF) (Z.land opcode 0xFF)
                ltac:(lia) ltac:(lia)) as Hle.
  assert (Hnn : 0 <= Z.land (JS.floor_mul u 0xFF) (Z.land opcode 0xFF))
    by (apply Z.land_nonneg; lia).
  unfold RND. rewrite getV_setV_eq by (simpl; lia).
  rewrite Z.mod_small by lia. repeat split; lia.
Qed.

(** The largest double below 1, [(2^53 - 1) / 2^53], and the mask
    0xFF: V0 receives 254. *)
Lemma RND_draw_is_at_most_254_witness :
  exists s',
    executeInstruction Chip8.noKey (JS.mkUnitDouble (2 ^ 53 - 1) 53) 0xC0FF Chip8.cpu
    = Ok s' /\
    getV s' 0 = 254 /\
    0 <= JS.floor_mul (JS.mkUnitDouble (2 ^ 53 - 1) 53) 0xFF <= 254 /\
    getV s' 0 <> 255.
Proof.
  apply (RND_draw_is_at_most_254 Chip8.noKey (JS.mkUnitDouble (2 ^ 53 - 1) 53)
           0xC0FF Chip8.cpu).
  - reflexivity.
  - unfold JS.unit_double_ok; simpl. lia.
  - reflexivity.
Defined.

(** ** Sprite drawing *)
Section Toggling.

Implicit Types (d : gmap Z Z) (loc : Z) (locs : list Z).

Lemma truthy_to_int (o : option Z) : JS.truthy o = negb (JS.to_int o =? 0).
Proof. destruct o; reflexivity. Qed.

Lemma setPixel_display r x y :
  Renderer.display (fst (Renderer.setPixel r x y))
  = Draw.toggle (Renderer.display r) (Renderer.pixelLoc x y).
Proof. reflexivity. Qed.

Lemma to_int_toggle d loc loc' :
  JS.to_int (Draw.toggle d loc !! loc')
  = if loc =? loc' then Z.lxor (JS.to_int (d !! loc')) 1 else JS.to_int (d !! loc').
Proof.
  unfold Draw.toggle. destruct (Z.eqb_spec loc loc') as [-> | Hne].
  - rewrite lookup_insert_eq. reflexivity.
  - rewrite lookup_insert_ne by assumption. reflexivity.
Qed.

Lemma to_int_toggles locs : forall d loc,
  JS.to_int (fold_left Draw.toggle locs d !! loc)
  = Z.lxor (JS.to_int (d !! loc)) (Z.b2z (Draw.flips locs loc)).
Proof.
  induction locs as [|a locs IH]; intros d loc; simpl.
  - rewrite Z.lxor_0_r. reflexivity.
  - rewrite IH, to_int_toggle.
    destruct (a =? loc); simpl.
    + rewrite Z.lxor_assoc. f_equal.
      destruct (Draw.flips locs loc); reflexivity.
    + reflexivity.
Qed.

Lemma flips_app locs locs' loc :
  Draw.flips (locs ++ locs') loc
  = xorb (Draw.flips locs loc) (Draw.flips locs' loc).
Proof.
  induction locs as [|a locs IH]; simpl.
  - destruct (Draw.flips locs' loc); reflexivity.
  - rewrite IH, xorb_assoc. reflexivity.
Qed.

(** Toggling the same cells a second time gives back every pixel. *)
Lemma toggles_twice locs d loc :
  JS.truthy (fold_left Draw.toggle locs (fold_left Draw.toggle locs d) !! loc)
  = JS.truthy (d !! loc).
Proof.
  rewrite <- fold_left_app, !truthy_to_int, to_int_toggles, flips_app.
  rewrite xorb_nilpotent, Z.lxor_0_r. reflexivity.
Qed.

(** What the boolean returned by [setPixel] means. *)
Lemma setPixel_true_iff_turned_off r x y :
  snd (Renderer.setPixel r x y) = true <->
  Renderer.lit r (Renderer.pixelLoc x y) = true /\
  Renderer.lit (fst (Renderer.setPixel r x y)) (Renderer.pixelLoc x y) = false.
Proof.
  unfold Renderer.lit. rewrite setPixel_display.
  unfold Renderer.setPixel; simpl. fold (Draw.toggle (Renderer.display r)
                                           (Renderer.pixelLoc x y)).
  rewrite !truthy_to_int, to_int_toggle, Z.eqb_refl.
  set (c := JS.to_int (Renderer.display r !! Renderer.pixelLoc x y)).
  destruct (Z.eqb_spec (Z.lxor c 1) 0) as [E | E]; simpl.
  - apply Z.lxor_eq in E. rewrite E. simpl. tauto.
  - split; [discriminate | intros [_ H]; discriminate].
Qed.

End Toggling.

Section DrawLoops.

Variables (x y : Z).

(** A property of the machine and of the calls made so far that every
    plotted pixel preserves is preserved by the loops. *)
Section Invariant.

Variable P : CPU.t * list call -> Prop.
Hypothesis P_plot : forall px py acc, P acc -> P (plot px py acc).

Lemma drawCol_inv row col acc : P (fst acc) -> P (fst (drawCol x y row col acc)).
Proof.
  destruct acc as [[s log] sprite]. cbn [fst]. intros H. unfold drawCol.
  destruct (0 <? Z.land sprite 0x80).
  - specialize (P_plot (getV s x + col) (getV s y + row) _ H).
    destruct (plot _ _ _). exact P_plot.
  - exact H.
Qed.

Lemma drawRow_inv row acc : P acc -> P (drawRow x y row acc).
Proof.
  destruct acc as [s log]. intros H. unfold drawRow.
  apply (for_loop_ind (fun a => P (fst a))); [exact H|].
  intros col a Ha. apply drawCol_inv, Ha.
Qed.

Lemma drawRows_inv n k acc : P acc -> P (for_loop n k (drawRow x y) acc).
Proof.
  intros H. apply for_loop_ind; [exact H|].
  intros row a Ha. apply drawRow_inv, Ha.
Qed.

End Invariant.

Lemma draw_inv_plot s0 px py acc : Draw.inv s0 acc -> Draw.inv s0 (plot px py acc).
Proof.
  destruct acc as [s log].
  intros (Hlen & HF & Hdisp & Hkeep & Hmem & Hi & Hregs).
  unfold plot.
  pose proof (setPixel_display (renderer s) px py) as Hd.
  pose proof (setPixel_true_iff_turned_off (renderer s) px py) as Herased.
  destruct (Renderer.setPixel (renderer s) px py) as [r erased]; simpl in Hd, Herased.
  unfold Draw.inv, Draw.collided, Draw.cells.
  rewrite existsb_app, map_app, fold_left_app; simpl.
  rewrite orb_false_r.
  assert (Hdisp' : Renderer.display r
                   = Draw.toggle
                       (fold_left Draw.toggle (map fst log)
                          (Renderer.display (renderer s0)))
                       (Renderer.pixelLoc px py))
    by (rewrite Hd; f_equal; exact Hdisp).
  destruct erased.
  - rewrite orb_true_r. regs. simpl.
    repeat split; try assumption; try discriminate.
    intros z Hz. rewrite getV_setV_ne by lia. apply Hregs, Hz.
  - rewrite orb_false_r. simpl.
    repeat split; try assumption.
    intros Hnone loc Hlit. specialize (Hkeep Hnone loc Hlit).
    unfold Renderer.lit in *. rewrite Hd.
    destruct (Z.eq_dec (Renderer.pixelLoc px py) loc) as [<- | Hne].
    + rewrite <- Hd.
      destruct (JS.truthy (Renderer.display r !! Renderer.pixelLoc px py)) eqn:E;
        [reflexivity|].
      assert (false = true) as Habs; [|discriminate Habs].
      apply Herased. split; [exact Hkeep | reflexivity].
    + unfold Draw.toggle. rewrite lookup_insert_ne by assumption. exact Hkeep.
Qed.

Lemma DRW_inv opcode s :
  length (v s) = 16%nat ->
  Draw.inv (setV s 0xF 0) (DRW x y opcode s).
Proof.
  intros Hlen. unfold DRW. apply drawRows_inv.
  - intros px py acc. apply draw_inv_plot.
  - unfold Draw.inv. regs. simpl. repeat split; auto.
Qed.

(** Two draws of the same sprite at the same place make the same
    calls, as long as the coordinates are not read from VF. *)
Hypotheses (Hx : x <> 0xF) (Hy : y <> 0xF).

Lemma same_draw_plot px py a b : Draw.same_draw x y a b -> Draw.same_draw x y (plot px py a) (plot px py b).
Proof.
  destruct a as [sa la], b as [sb lb].
  intros [(Hvx & Hvy & Hm & Hi) Hc]; cbn [fst snd] in *.
  unfold plot.
  destruct (Renderer.setPixel (renderer sa) px py) as [ra ea].
  destruct (Renderer.setPixel (renderer sb) px py) as [rb eb].
  unfold Draw.same_draw, Draw.same_sprite, Draw.cells. cbn [fst snd].
  unfold Draw.cells, call in *. rewrite !map_app, Hc.
  destruct ea, eb; regs; repeat split; assumption.
Qed.

Lemma same_draw_cols row m : forall col sprite a b,
  Draw.same_draw x y a b ->
  Draw.same_draw x y (fst (for_loop m col (drawCol x y row) (a, sprite)))
            (fst (for_loop m col (drawCol x y row) (b, sprite))).
Proof.
  induction m as [|m IHm]; intros col sprite [sa la] [sb lb] Hab;
    cbn [for_loop]; [exact Hab|].
  unfold drawCol at 2 4.
  destruct (0 <? Z.land sprite 0x80).
  - pose proof Hab as [(Hvx & Hvy & _) _]. cbn [fst] in Hvx, Hvy.
    rewrite Hvx, Hvy.
    pose proof (same_draw_plot (getV sb x + col) (getV sb y + row) _ _ Hab) as H.
    destruct (plot _ _ (sa, la)) as [sa' la'].
    destruct (plot _ _ (sb, lb)) as [sb' lb'].
    apply IHm, H.
  - apply IHm, Hab.
Qed.

Lemma same_draw_rows n : forall k a b,
  Draw.same_draw x y a b ->
  Draw.same_draw x y (for_loop n k (drawRow x y) a) (for_loop n k (drawRow x y) b).
Proof.
  induction n as [|n IH]; intros k a b Hab; cbn [for_loop]; [exact Hab|].
  apply IH. clear IH.
  destruct a as [sa la], b as [sb lb]. unfold drawRow.
  assert (Hsprite : getMem sa (i sa + k) = getMem sb (i sb + k)).
  { destruct Hab as [(_ & _ & Hm & Hi) _]; cbn [fst] in *.
    unfold getMem. rewrite Hm, Hi. reflexivity. }
  rewrite Hsprite. apply same_draw_cols, Hab.
Qed.

Lemma DRW_same_cells opcode sa sb :
  Draw.same_sprite x y sa sb ->
  Draw.cells (snd (DRW x y opcode sa)) = Draw.cells (snd (DRW x y opcode sb)).
Proof.
  intros (Hvx & Hvy & Hm & Hi). unfold DRW.
  apply same_draw_rows. split; [|reflexivity]. simpl.
  unfold Draw.same_sprite. regs. simpl. repeat split; assumption.
Qed.

End DrawLoops.

(** C8, the redraw for [x] and [y] other than 0xF: Dxyn clears VF and
    then leaves 1 in it exactly when
    some [setPixel] call of the draw returned true, that is turned a lit
    pixel off; in particular VF is 1 whenever a pixel lit before the
    draw is not lit after it.  When neither [x] nor [y] is 0xF, drawing
    the same sprite a second time gives back every pixel of the screen,
    and the second draw reports VF = 1 whenever it turned a pixel off. *)
Theorem DRW_collision_flag_and_redraw :
  (forall isKeyPressed u opcode s,
      Z.land opcode 0xF000 = 0xD000 -> length (v s) = 16%nat ->
      exists s' log,
        DRW (opX opcode) (opY opcode) opcode (skip s) = (s', log) /\
        executeInstruction isKeyPressed u opcode s = Ok s' /\
        getV s' 0xF = (if Draw.collided log then 1 else 0) /\
        ((exists loc, Renderer.lit (renderer s) loc = true /\
                      Renderer.lit (renderer s') loc = false) ->
         getV s' 0xF = 1)) /\
  (forall isKeyPressed u opcode s,
      Z.land opcode 0xF000 = 0xD000 -> length (v s) = 16%nat ->
      opX opcode <> 0xF -> opY opcode <> 0xF ->
      exists s1 s2,
        executeInstruction isKeyPressed u opcode s = Ok s1 /\
        executeInstruction isKeyPressed u opcode s1 = Ok s2 /\
        (forall loc,
            Renderer.lit (renderer s2) loc = Renderer.lit (renderer s) loc) /\
        ((exists loc, Renderer.lit (renderer s1) loc = true /\
                      Renderer.lit (renderer s2) loc = false) ->
         getV s2 0xF = 1)).
Proof.
  assert (Hone : forall isKeyPressed u opcode s,
      Z.land opcode 0xF000 = 0xD000 -> length (v s) = 16%nat ->
      exists s' log,
        DRW (opX opcode) (opY opcode) opcode (skip s) = (s', log) /\
        executeInstruction isKeyPressed u opcode s = Ok s' /\
        getV s' 0xF = (if Draw.collided log then 1 else 0) /\
        ((exists loc, Renderer.lit (renderer s) loc = true /\
                      Renderer.lit (renderer s') loc = false) ->
         getV s' 0xF = 1)).
  { intros k u opcode s Hop Hlen.
    pose proof (DRW_inv (opX opcode) (opY opcode) opcode (skip s) Hlen) as Hinv.
    rewrite exec_DRW by assumption.
    destruct (DRW (opX opcode) (opY opcode) opcode (skip s)) as [s' log].
    destruct Hinv as (_ & HF & _ & Hkeep & _).
    exists s', log. repeat split; [exact HF|].
    intros (loc & Hon & Hoff). rewrite HF.
    destruct (Draw.collided log); [reflexivity|].
    rewrite (Hkeep eq_refl loc Hon) in Hoff. discriminate Hoff. }
  split; [exact Hone|].
  intros k u opcode s Hop Hlen Hx Hy.
  pose proof (DRW_inv (opX opcode) (opY opcode) opcode (skip s) Hlen) as Hinv1.
  destruct (Hone k u opcode s Hop Hlen) as (s1 & log1 & Hd1 & He1 & _).
  rewrite Hd1 in Hinv1.
  destruct Hinv1 as (Hlen1 & _ & Hdisp1 & _ & Hmem1 & Hi1 & Hregs1).
  pose proof (DRW_inv (opX opcode) (opY opcode) opcode (skip s1) Hlen1) as Hinv2.
  destruct (Hone k u opcode s1 Hop Hlen1) as (s2 & log2 & Hd2 & He2 & _ & Hoff2).
  rewrite Hd2 in Hinv2. destruct Hinv2 as (_ & _ & Hdisp2 & _).
  exists s1, s2. repeat split; [exact He1 | exact He2 | | exact Hoff2].
  assert (Hcells : Draw.cells log2 = Draw.cells log1).
  { change log2 with (snd (s2, log2)). change log1 with (snd (s1, log1)).
    rewrite <- Hd1, <- Hd2.
    apply DRW_same_cells; [assumption | assumption |].
    unfold Draw.same_sprite. rewrite !getV_skip, !Hregs1 by assumption.
    regs. simpl in Hmem1, Hi1 |- *. auto. }
  intros loc. unfold Renderer.lit.
  rewrite Hdisp2, Hcells. simpl. rewrite Hdisp1. simpl.
  apply toggles_twice.
Qed.

(** The glyph of the digit 0 (five rows at address 0), drawn twice at
    column 0, row 1 of an empty screen by the opcode 0xD015. *)
Lemma DRW_collision_flag_and_redraw_witness :
  (exists s' log,
      DRW 0 1 0xD015 (skip (Chip8.init [])) = (s', log) /\
      executeInstruction Chip8.noKey Chip8.zero 0xD015 (Chip8.init []) = Ok s' /\
      getV s' 0xF = (if Draw.collided log then 1 else 0) /\
      ((exists loc, Renderer.lit (renderer (Chip8.init [])) loc = true /\
                    Renderer.lit (renderer s') loc = false) ->
       getV s' 0xF = 1)) /\
  (exists s1 s2,
      executeInstruction Chip8.noKey Chip8.zero 0xD015 (Chip8.init []) = Ok s1 /\
      executeInstruction Chip8.noKey Chip8.zero 0xD015 s1 = Ok s2 /\
      (forall loc,
          Renderer.lit (renderer s2) loc
          = Renderer.lit (renderer (Chip8.init [])) loc) /\
      ((exists loc, Renderer.lit (renderer s1) loc = true /\
                    Renderer.lit (renderer s2) loc = false) ->
       getV s2 0xF = 1)).
Proof.
  split.
  - apply (proj1 DRW_collision_flag_and_redraw Chip8.noKey Chip8.zero 0xD015
             (Chip8.init [])); reflexivity.
  - apply (proj2 DRW_collision_flag_and_redraw Chip8.noKey Chip8.zero 0xD015
             (Chip8.init [])); first [reflexivity | discriminate].
Defined.

(** On that input the second draw does turn pixels off and reports it. *)
Example redraw_of_glyph_0 :
  exists s1 s2,
    executeInstruction Chip8.noKey Chip8.zero 0xD015 (Chip8.init []) = Ok s1 /\
    executeInstruction Chip8.noKey Chip8.zero 0xD015 s1 = Ok s2 /\
    getV s1 0xF = 0 /\ Renderer.lit (renderer s1) 64 = true /\
    getV s2 0xF = 1 /\ Renderer.lit (renderer s2) 64 = false.
Proof.
  eexists. eexists. split; [reflexivity|]. split; [reflexivity|].
  repeat split; vm_compute; reflexivity.
Qed.

(** C8 does not hold when [x] is 0xF: the column is read from VF
    while the draw changes it.  With the row 0xC0 at I and an empty
    screen, the first 0xDF01 lights the cells 0 and 1; the second one
    turns the cell 0 off, which sets VF, and then toggles the cell 2
    instead of the cell 1: the cells 1 and 2 stay lit. *)
Lemma redraw_does_not_restore_when_x_is_F :
  ~ (forall isKeyPressed u opcode s s1 s2,
        Z.land opcode 0xF000 = 0xD000 -> length (v s) = 16%nat ->
        executeInstruction isKeyPressed u opcode s = Ok s1 ->
        getV s1 (opX opcode) = getV s (opX opcode) ->
        getV s1 (opY opcode) = getV s (opY opcode) ->
        executeInstruction isKeyPressed u opcode s1 = Ok s2 ->
        forall loc,
          Renderer.lit (renderer s2) loc = Renderer.lit (renderer s) loc).
Proof.
  intros H.
  pose (s := set_i (Chip8.init [0xC0]) 0x200).
  pose (s1 := fst (DRW 0xF 0 0xDF01 (skip s))).
  pose (s2 := fst (DRW 0xF 0 0xDF01 (skip s1))).
  specialize (H Chip8.noKey Chip8.zero 0xDF01 s s1 s2
                eq_refl eq_refl eq_refl eq_refl eq_refl eq_refl 2).
  vm_compute in H. discriminate H.
Qed.

(** C8, the code when [x] is 0xF: the draw clears VF and then reads the
    column from VF again for every pixel.  With the row 0xC0 at I, an
    empty screen and 0 in VF, the first 0xDF01 lights the cells 0 and
    1 and leaves VF at 0; the second one, on the same registers, turns
    the cell 0 off, which sets VF, and so toggles the cell 2 instead of
    the cell 1: the cells 1 and 2 stay lit on a screen that was empty.
    With 5 in VF the same sprite is drawn at the column 0 and not at
    the column 5. *)
Theorem DRW_reads_the_column_from_VF_while_drawing :
  let s := set_i (Chip8.init [0xC0]) 0x200 in
  (forall loc, Renderer.lit (renderer s) loc = false) /\
  getMem s (i s) = 0xC0 /\ getV s 0xF = 0 /\ getV s 0 = 0 /\
  (exists s1 s2,
      executeInstruction Chip8.noKey Chip8.zero 0xDF01 s = Ok s1 /\
      executeInstruction Chip8.noKey Chip8.zero 0xDF01 s1 = Ok s2 /\
      Renderer.lit (renderer s1) 0 = true /\ Renderer.lit (renderer s1) 1 = true /\
      Renderer.lit (renderer s1) 2 = false /\
      getV s1 0xF = 0 /\ getV s1 0 = 0 /\ getMem s1 (i s1) = 0xC0 /\
      Renderer.lit (renderer s2) 0 = false /\ Renderer.lit (renderer s2) 1 = true /\
      Renderer.lit (renderer s2) 2 = true /\ getV s2 0xF = 1) /\
  (exists s5,
      executeInstruction Chip8.noKey Chip8.zero 0xDF01 (setV s 0xF 5) = Ok s5 /\
      Renderer.lit (renderer s5) 0 = true /\ Renderer.lit (renderer s5) 1 = true /\
      Renderer.lit (renderer s5) 5 = false /\ Renderer.lit (renderer s5) 6 = false).
Proof.
  intros s. split; [intros loc; reflexivity|].
  split; [vm_compute; reflexivity|]. split; [reflexivity|]. split; [reflexivity|].
  split.
  - exists (fst (DRW 0xF 0 0xDF01 (skip s))).
    exists (fst (DRW 0xF 0 0xDF01 (skip (fst (DRW 0xF 0 0xDF01 (skip s)))))).
    split; [reflexivity|]. split; [reflexivity|].
    repeat split; vm_compute; reflexivity.
  - exists (fst (DRW 0xF 0 0xDF01 (skip (setV s 0xF 5)))).
    split; [reflexivity|]. repeat split; vm_compute; reflexivity.
Qed.

(** ** The sizes of the register file and of the memory never change *)

Lemma length_setMem s a val : length (memory (setMem s a val)) = length (memory s).
Proof.
  unfold setMem, JS.set; simpl.
  destruct (0 <=? a); [apply length_insert | reflexivity].
Qed.

Lemma LD_I_Vx_sizes x s : same_sizes s (LD_I_Vx x s).
Proof.
  unfold LD_I_Vx. apply for_loop_ind.
  - split; reflexivity.
  - intros k s' [Hv Hm]. split; [exact Hv | rewrite length_setMem; exact Hm].
Qed.

Lemma LD_Vx_I_sizes x s : same_sizes s (LD_Vx_I x s).
Proof.
  unfold LD_Vx_I. apply for_loop_ind.
  - split; reflexivity.
  - intros k s' [Hv Hm]. split; [rewrite length_setV; exact Hv | exact Hm].
Qed.

Lemma DRW_sizes x y opcode s : same_sizes s (fst (DRW x y opcode s)).
Proof.
  unfold DRW.
  apply (drawRows_inv x y (fun acc => same_sizes s (fst acc))).
  - intros px py [s' log] [Hv Hm]. unfold plot.
    destruct (Renderer.setPixel (renderer s') px py) as [r erased].
    destruct erased; split; cbn [fst]; rewrite ?length_setV; assumption.
  - split; cbn [fst]; [apply length_setV | reflexivity].
Qed.

Local Ltac sizes :=
  intros [= <-];
  cbv beta zeta delta [RET CALL ADD_xy SUB_xy SHR_x SUBN_xy SHL_x RND LD_K LD_B skip];
  repeat match goal with
         | |- context [if ?c then _ else _] => destruct c
         | |- context [match stack ?s with _ => _ end] => destruct (stack s)
         | |- context [LD_I_Vx ?x ?s] =>
             destruct (LD_I_Vx_sizes x s) as [-> ->]
         | |- context [LD_Vx_I ?x ?s] =>
             destruct (LD_Vx_I_sizes x s) as [-> ->]
         | |- context [DRW ?x ?y ?o ?s] =>
             destruct (DRW_sizes x y o s) as [-> ->]
         end;
  split; rewrite ?length_setV, ?length_setMem; reflexivity.

Lemma executeInstruction_sizes isKeyPressed u opcode s s' :
  executeInstruction isKeyPressed u opcode s = Ok s' -> same_sizes s s'.
Proof.
  unfold same_sizes.
  destruct (land_0xF000_cases opcode) as (k & Hk & Hland).
  unfold executeInstruction. rewrite Hland. clear Hland.
  do 16 (destruct k as [|k];
         [ cbv beta iota zeta delta [Z.of_nat Pos.of_succ_nat Pos.succ Z.mul Pos.mul Pos.add];
           repeat match goal with
                  | |- context [match ?z with 0 => _ | Zpos _ => _ | Zneg _ => _ end] =>
                      destruct z
                  | |- context [match ?p with xH => _ | xO _ => _ | xI _ => _ end] =>
                      destruct p
                  end; sizes
         | ]).
  lia.
Qed.

(** Every machine reached from a new one has 16 registers. *)
Lemma executeInstruction_16_registers isKeyPressed u opcode s s' :
  length (v s) = 16%nat ->
  executeInstruction isKeyPressed u opcode s = Ok s' ->
  length (v s') = 16%nat.
Proof.
  intros Hlen Hexec. apply executeInstruction_sizes in Hexec as [Hv _]. lia.
Qed.

(** * Further properties of the program *)

(** ** Well-formed machines stay well formed *)
Section WellFormed.

Implicit Types (s : CPU.t) (x a : Z).

Lemma byte_mod z : Inv.byte (z mod 256).
Proof. apply Z.mod_pos_bound. lia. Qed.

Lemma Forall_byte_set (l : list Z) idx val :
  Forall Inv.byte l -> Forall Inv.byte (JS.set l idx val).
Proof.
  intros Hl. unfold JS.set. destruct (0 <=? idx); [|exact Hl].
  apply Forall_insert; [exact Hl | apply byte_mod].
Qed.

Lemma length_set (l : list Z) idx val : length (JS.set l idx val) = length l.
Proof. unfold JS.set. destruct (0 <=? idx); [apply length_insert | reflexivity]. Qed.

Lemma byte_get (l : list Z) idx : Forall Inv.byte l -> Inv.byte (JS.to_int (JS.get l idx)).
Proof.
  intros Hl. unfold JS.get. destruct (0 <=? idx); [|simpl; unfold Inv.byte; lia].
  destruct (l !! Z.to_nat idx) as [z|] eqn:E; simpl; [|unfold Inv.byte; lia].
  eapply Forall_lookup_1; eassumption.
Qed.

Lemma getV_byte s x : Inv.wf s -> Inv.byte (getV s x).
Proof. intros (_ & _ & Hv & _). apply byte_get, Hv. Qed.

Lemma getMem_byte s a : Inv.wf s -> Inv.byte (getMem s a).
Proof. intros (_ & _ & _ & Hm & _). apply byte_get, Hm. Qed.

Lemma wf_setV s x a : Inv.wf s -> Inv.wf (setV s x a).
Proof.
  intros (Hlv & Hlm & Hv & Hm & Hd & Hs & Hi & Hb).
  repeat split; try assumption; simpl.
  - rewrite length_set. exact Hlv.
  - apply Forall_byte_set, Hv.
  - apply Hd.
  - apply Hd.
  - apply Hs.
  - apply Hs.
Qed.

Lemma wf_setMem s a val : Inv.wf s -> Inv.wf (setMem s a val).
Proof.
  intros (Hlv & Hlm & Hv & Hm & Hd & Hs & Hi & Hb).
  repeat split; try assumption; simpl.
  - rewrite length_set. exact Hlm.
  - apply Forall_byte_set, Hm.
  - apply Hd.
  - apply Hd.
  - apply Hs.
  - apply Hs.
Qed.

Lemma wf_set_pc s p : Inv.wf s -> Inv.wf (set_pc s p).
Proof. intros H. exact H. Qed.

Lemma wf_set_stack s st : Inv.wf s -> Inv.wf (set_stack s st).
Proof. intros H. exact H. Qed.

Lemma wf_set_paused s b : Inv.wf s -> Inv.wf (set_paused s b).
Proof. intros H. exact H. Qed.

Lemma wf_set_onNextKeyPress s k : Inv.wf s -> Inv.wf (set_onNextKeyPress s k).
Proof. intros H. exact H. Qed.

Lemma wf_set_speaker s sp : Inv.wf s -> Inv.wf (set_speaker s sp).
Proof. intros H. exact H. Qed.

Lemma wf_set_i s a : 0 <= a -> Inv.wf s -> Inv.wf (set_i s a).
Proof.
  intros Ha (Hlv & Hlm & Hv & Hm & Hd & Hs & Hi & Hb).
  repeat split; try assumption; first [apply Hd | apply Hs].
Qed.

Lemma wf_set_delayTimer s d : Inv.byte d -> Inv.wf s -> Inv.wf (set_delayTimer s d).
Proof.
  intros Hd' (Hlv & Hlm & Hv & Hm & Hd & Hs & Hi & Hb).
  repeat split; try assumption; first [apply Hd' | apply Hs].
Qed.

Lemma wf_set_soundTimer s d : Inv.byte d -> Inv.wf s -> Inv.wf (set_soundTimer s d).
Proof.
  intros Hs' (Hlv & Hlm & Hv & Hm & Hd & Hs & Hi & Hb).
  repeat split; try assumption; first [apply Hd | apply Hs'].
Qed.

Lemma wf_set_renderer s r :
  Inv.binary (Renderer.display r) -> Inv.wf s -> Inv.wf (set_renderer s r).
Proof.
  intros Hr (Hlv & Hlm & Hv & Hm & Hd & Hs & Hi & Hb).
  repeat split; try assumption; first [apply Hd | apply Hs].
Qed.

Lemma binary_empty : Inv.binary ∅.
Proof. intros loc z H. rewrite lookup_empty in H. discriminate H. Qed.

Lemma binary_toggle d loc : Inv.binary d -> Inv.binary (Draw.toggle d loc).
Proof.
  intros Hd loc' z. unfold Draw.toggle.
  destruct (Z.eq_dec loc loc') as [<- | Hne].
  - rewrite lookup_insert_eq. intros [= <-].
    destruct (d !! loc) as [c|] eqn:E; simpl; [|auto].
    destruct (Hd loc c E) as [-> | ->]; auto.
  - rewrite lookup_insert_ne by assumption. apply Hd.
Qed.

Lemma wf_plot px py (acc : CPU.t * list call) :
  Inv.wf (fst acc) -> Inv.wf (fst (plot px py acc)).
Proof.
  destruct acc as [s log]. cbn [fst]. intros Hwf. unfold plot.
  pose proof (setPixel_display (renderer s) px py) as Hd.
  destruct (Renderer.setPixel (renderer s) px py) as [r erased]. cbn [fst] in *.
  assert (Hwf' : Inv.wf (set_renderer s r)).
  { apply wf_set_renderer; [|exact Hwf]. rewrite Hd.
    apply binary_toggle. apply Hwf. }
  destruct erased; [apply wf_setV|]; exact Hwf'.
Qed.

Lemma wf_DRW x y opcode s : Inv.wf s -> Inv.wf (fst (DRW x y opcode s)).
Proof.
  intros Hwf. unfold DRW.
  apply (drawRows_inv x y (fun acc => Inv.wf (fst acc))).
  - intros px py acc. apply wf_plot.
  - cbn [fst]. apply wf_setV, Hwf.
Qed.

Lemma wf_LD_I_Vx x s : Inv.wf s -> Inv.wf (LD_I_Vx x s).
Proof.
  intros Hwf. unfold LD_I_Vx. apply for_loop_ind; [exact Hwf|].
  intros k s' H. apply wf_setMem, H.
Qed.

Lemma wf_LD_Vx_I x s : Inv.wf s -> Inv.wf (LD_Vx_I x s).
Proof.
  intros Hwf. unfold LD_Vx_I. apply for_loop_ind; [exact Hwf|].
  intros k s' H. apply wf_setV, H.
Qed.

Lemma wf_new scale : Inv.wf (CPU.new (Renderer.new scale) Speaker.new).
Proof.
  unfold Inv.wf, CPU.new, Renderer.new.
  cbn [v memory delayTimer soundTimer i renderer Renderer.display].
  split; [apply length_replicate|]. split; [apply length_replicate|].
  split; [apply Forall_replicate; unfold Inv.byte; lia|].
  split; [apply Forall_replicate; unfold Inv.byte; lia|].
  unfold Inv.byte. repeat split; try lia. apply binary_empty.
Qed.

End WellFormed.

Ltac wf_step :=
  first
    [ assumption
    | apply wf_setV | apply wf_setMem | apply wf_set_pc | apply wf_set_stack
    | apply wf_set_paused | apply wf_set_onNextKeyPress | apply wf_set_speaker
    | apply wf_DRW | apply wf_LD_I_Vx | apply wf_LD_Vx_I
    | apply wf_set_renderer; [apply binary_empty|]
    | apply wf_set_delayTimer; [apply getV_byte|]
    | apply wf_set_soundTimer; [apply getV_byte|]
    | apply wf_set_i;
      [ first [ apply Z.land_nonneg; right; lia
              | match goal with
                | H : Inv.wf ?s0 |- context [getV ?s1 ?x] =>
                    let Hb := fresh in
                    assert (Hb : Inv.byte (getV s1 x))
                      by (apply getV_byte; repeat wf_step);
                    destruct H as (_ & _ & _ & _ & _ & _ & ? & _);
                    unfold Inv.byte in Hb; simpl in *; lia
                end ] | ] ].

(** The case analysis of [executeInstruction]: one goal per branch of
    its switches, each of the form [Ok _ = Ok s' -> _]. *)
Ltac by_class k Hk Hland :=
  first
    [ exfalso; lia
    | destruct k as [|k];
      [ match type of Hland with
        | _ = ?r => let c := eval vm_compute in r in change r with c in Hland
        end;
        unfold executeInstruction; rewrite Hland; clear Hland Hk;
        cbv beta iota zeta;
        repeat match goal with
               | |- context [match ?z with 0 => _ | Zpos _ => _ | Zneg _ => _ end] =>
                   destruct z
               | |- context [match ?p with xH => _ | xO _ => _ | xI _ => _ end] =>
                   destruct p
               end
      | by_class k Hk Hland ] ].

Ltac by_instruction opcode :=
  let k := fresh "k" in
  let Hk := fresh "Hk" in
  let Hland := fresh "Hland" in
  destruct (land_0xF000_cases opcode) as (k & Hk & Hland);
  by_class k Hk Hland.

Lemma executeInstruction_wf isKeyPressed u opcode s s' :
  Inv.wf s ->
  executeInstruction isKeyPressed u opcode s = Ok s' -> Inv.wf s'.
Proof.
  intros Hwf.
  by_instruction opcode;
    intros [= <-];
    cbv beta zeta delta [RET CALL ADD_xy SUB_xy SHR_x SUBN_xy SHL_x RND
                         LD_K LD_B skip Renderer.clear];
    repeat match goal with
           | |- context [if ?c then _ else _] => destruct c
           | |- context [match stack ?s with _ => _ end] => destruct (stack s)
           end;
    repeat wf_step.
Qed.

(** ** The frame cycle *)

Lemma cycleLoop_never_throws isKeyPressed rnd n : forall k s,
  exists s', cycleLoop isKeyPressed rnd n k s = Ok s'.
Proof.
  induction n as [|n IH]; intros k s; simpl; [eauto|].
  destruct (paused s); [apply IH|].
  destruct (executeInstruction_never_throws isKeyPressed (rnd k) (fetch s) s)
    as [s1 ->].
  apply IH.
Qed.

Lemma cycle_never_throws isKeyPressed rnd s :
  exists s', cycle isKeyPressed rnd s = Ok s'.
Proof.
  unfold cycle.
  destruct (cycleLoop_never_throws isKeyPressed rnd (Z.to_nat (speed s)) 0 s)
    as [s1 ->].
  eauto.
Qed.

(** No frame cycle and no instruction ever raises an exception,
    whatever the opcode and the machine are. *)
Theorem nothing_ever_throws isKeyPressed u rnd opcode s :
  (exists s', executeInstruction isKeyPressed u opcode s = Ok s') /\
  (exists s', cycle isKeyPressed rnd s = Ok s').
Proof.
  split; [apply executeInstruction_never_throws | apply cycle_never_throws].
Qed.

Lemma cycleLoop_wf isKeyPressed rnd n : forall k s s',
  Inv.wf s -> cycleLoop isKeyPressed rnd n k s = Ok s' -> Inv.wf s'.
Proof.
  induction n as [|n IH]; intros k s s' Hwf; simpl.
  - intros [= <-]. exact Hwf.
  - destruct (paused s); [apply IH, Hwf|].
    destruct (executeInstruction isKeyPressed (rnd k) (fetch s) s) as [s1|e] eqn:E;
      [|discriminate].
    apply IH. eapply executeInstruction_wf; eassumption.
Qed.

Lemma wf_updateTimers s : Inv.wf s -> Inv.wf (updateTimers s).
Proof.
  intros Hwf. unfold updateTimers.
  assert (Hd : Inv.byte (delayTimer s)) by apply Hwf.
  assert (Hs : Inv.byte (soundTimer s)) by apply Hwf.
  unfold Inv.byte in *.
  destruct (Z.ltb_spec 0 (delayTimer s)); simpl;
    destruct (Z.ltb_spec 0 (soundTimer s)); simpl;
    repeat first [ assumption
                 | apply wf_set_delayTimer; [unfold Inv.byte; simpl; lia|]
                 | apply wf_set_soundTimer; [unfold Inv.byte; simpl; lia|] ].
Qed.

Lemma wf_playSound s : Inv.wf s -> Inv.wf (playSound s).
Proof. intros Hwf. unfold playSound. destruct (0 <? soundTimer s); exact Hwf. Qed.

Lemma wf_loadSpritesIntoMemory s : Inv.wf s -> Inv.wf (loadSpritesIntoMemory s).
Proof.
  intros Hwf. unfold loadSpritesIntoMemory. apply for_loop_ind; [exact Hwf|].
  intros k s' H. apply (wf_setMem s' k _ H).
Qed.

Lemma wf_loadProgramIntoMemory program s :
  Inv.wf s -> Inv.wf (loadProgramIntoMemory program s).
Proof.
  intros Hwf. unfold loadProgramIntoMemory. apply for_loop_ind; [exact Hwf|].
  intros k s' H. apply (wf_setMem s' _ _ H).
Qed.

(** The invariant of the machine: a new machine is well formed, and
    loading the font, loading a program of any size, executing any
    opcode, delivering a key and running a frame cycle keep it well
    formed: 16 registers and 4096 memory cells, all bytes, timers that
    are bytes, I not negative, display cells 0 or 1. *)
Theorem machine_stays_well_formed :
  (forall scale, Inv.wf (CPU.new (Renderer.new scale) Speaker.new)) /\
  (forall s, Inv.wf s -> Inv.wf (loadSpritesIntoMemory s)) /\
  (forall program s, Inv.wf s -> Inv.wf (loadProgramIntoMemory program s)) /\
  (forall isKeyPressed u opcode s s',
      Inv.wf s -> executeInstruction isKeyPressed u opcode s = Ok s' -> Inv.wf s') /\
  (forall x key s, Inv.wf s -> Inv.wf (keyPressed x key s)) /\
  (forall isKeyPressed rnd s s',
      Inv.wf s -> cycle isKeyPressed rnd s = Ok s' -> Inv.wf s').
Proof.
  split; [apply wf_new|]. split; [apply wf_loadSpritesIntoMemory|].
  split; [apply wf_loadProgramIntoMemory|].
  split; [apply executeInstruction_wf|].
  split.
  - intros x key s Hwf. unfold keyPressed. apply wf_set_paused, wf_setV, Hwf.
  - intros k rnd s s' Hwf. unfold cycle.
    destruct (cycleLoop k rnd (Z.to_nat (speed s)) 0 s) as [s1|e] eqn:E;
      [|discriminate].
    intros [= <-]. apply cycleLoop_wf in E; [|exact Hwf].
    assert (H2 : Inv.wf (playSound (if paused s1 then s1 else updateTimers s1))).
    { apply wf_playSound.
      destruct (paused s1); [exact E | apply wf_updateTimers, E]. }
    apply wf_set_renderer; [|exact H2].
    destruct H2 as (_ & _ & _ & _ & _ & _ & _ & Hb). exact Hb.
Qed.

(** A program of 5000 bytes, more than the memory holds, loaded into the
    machine of chip8.js and run for one frame. *)
Lemma machine_stays_well_formed_witness :
  Inv.wf (Chip8.init (replicate 5000 0x12)) /\
  exists s', cycle Chip8.noKey (fun _ => Chip8.zero)
               (Chip8.init (replicate 5000 0x12)) = Ok s' /\ Inv.wf s'.
Proof.
  pose proof machine_stays_well_formed as (Hnew & Hfont & Hprog & _ & _ & Hcycle).
  assert (Hinit : Inv.wf (Chip8.init (replicate 5000 0x12)))
    by (apply Hprog, Hfont, Hnew).
  split; [exact Hinit|].
  destruct (cycle_never_throws Chip8.noKey (fun _ => Chip8.zero)
              (Chip8.init (replicate 5000 0x12))) as [s' Hs'].
  exists s'. split; [exact Hs'|]. exact (Hcycle _ _ _ _ Hinit Hs').
Defined.


(** ** What each instruction can change *)
Section Footprint.

Implicit Types (s : CPU.t).

(** A field that the body of a loop leaves alone is left alone by the loop. *)
Lemma for_loop_field {A : Type} (f : CPU.t -> A) body n k s :
  (forall k s, f (body k s) = f s) -> f (for_loop n k body s) = f s.
Proof.
  intros Hbody. apply (for_loop_ind (fun s' => f s' = f s)); [reflexivity|].
  intros k' s' H. rewrite Hbody. exact H.
Qed.

(** A field that [setV] and [set_renderer] (with the same scale and
    canvas) leave alone is left alone by a draw. *)
Lemma DRW_field {A : Type} (f : CPU.t -> A) x y opcode s :
  (forall s x a, f (setV s x a) = f s) ->
  (forall s px py, f (set_renderer s (fst (Renderer.setPixel (renderer s) px py))) = f s) ->
  f (fst (DRW x y opcode s)) = f s.
Proof.
  intros HV HR. unfold DRW.
  transitivity (f (setV s 0xF 0)); [|apply HV].
  generalize (setV s 0xF 0) as s0. intros s0.
  apply (drawRows_inv x y (fun acc => f (fst acc) = f s0)); [|reflexivity].
  intros px py [s' log]. cbn [fst]. intros H. unfold plot.
  specialize (HR s' px py).
  destruct (Renderer.setPixel (renderer s') px py) as [r erased]. cbn [fst] in *.
  destruct erased; rewrite ?HV, HR; exact H.
Qed.

End Footprint.

Ltac field_eq :=
  cbv beta zeta delta [RET CALL ADD_xy SUB_xy SHR_x SUBN_xy SHL_x RND
                       LD_K LD_B skip Renderer.clear];
  repeat match goal with
         | |- context [if ?c then _ else _] => destruct c
         | |- context [match stack ?s with _ => _ end] => destruct (stack s)
         end;
  first
    [ reflexivity
    | unfold LD_I_Vx; rewrite for_loop_field by reflexivity; reflexivity
    | unfold LD_Vx_I; rewrite for_loop_field by reflexivity; reflexivity
    | rewrite (DRW_field (fun s => Renderer.scale (renderer s))) by reflexivity;
      reflexivity
    | rewrite (DRW_field (fun s => Renderer.canvas (renderer s))) by reflexivity;
      reflexivity
    | rewrite DRW_field by reflexivity; reflexivity ].

Ltac footprint_case :=
  first
    [ left; solve [field_eq]
    | right; solve [repeat first [reflexivity | split | left; reflexivity | right]] ].

Lemma executeInstruction_speaker isKeyPressed u opcode s s' :
  executeInstruction isKeyPressed u opcode s = Ok s' -> speaker s' = speaker s.
Proof. by_instruction opcode; intros [= <-]; field_eq. Qed.

(** Which instructions can change which part of the machine.  No
    instruction touches the speaker, the speed or the canvas; memory is
    written by Fx33 and Fx55 only, the stack by 00EE and 2nnn only, the
    display by 00E0 and Dxyn only, I by Annn, Fx1E and Fx29 only, the
    delay timer by Fx15 only, the sound timer by Fx18 only, the paused
    flag and the key callback by Fx0A only. *)
Theorem instruction_footprint isKeyPressed u opcode s s' :
  executeInstruction isKeyPressed u opcode s = Ok s' ->
  (speaker s' = speaker s /\ speed s' = speed s /\
   Renderer.scale (renderer s') = Renderer.scale (renderer s) /\
   Renderer.canvas (renderer s') = Renderer.canvas (renderer s)) /\
  (memory s' = memory s \/
   Z.land opcode 0xF000 = 0xF000 /\
   (Z.land opcode 0xFF = 0x33 \/ Z.land opcode 0xFF = 0x55)) /\
  (stack s' = stack s \/ (opcode = 0x00EE \/ Z.land opcode 0xF000 = 0x2000)) /\
  (Renderer.display (renderer s') = Renderer.display (renderer s) \/
   (opcode = 0x00E0 \/ Z.land opcode 0xF000 = 0xD000)) /\
  (i s' = i s \/
   (Z.land opcode 0xF000 = 0xA000 \/
    Z.land opcode 0xF000 = 0xF000 /\
    (Z.land opcode 0xFF = 0x1E \/ Z.land opcode 0xFF = 0x29))) /\
  (delayTimer s' = delayTimer s \/
   Z.land opcode 0xF000 = 0xF000 /\ Z.land opcode 0xFF = 0x15) /\
  (soundTimer s' = soundTimer s \/
   Z.land opcode 0xF000 = 0xF000 /\ Z.land opcode 0xFF = 0x18) /\
  (paused s' = paused s /\ onNextKeyPress s' = onNextKeyPress s \/
   Z.land opcode 0xF000 = 0xF000 /\ Z.land opcode 0xFF = 0x0A).
Proof.
  by_instruction opcode; intros [= <-].
  all: split; [repeat split; field_eq|].
  all: split; [footprint_case|].
  all: split; [footprint_case|].
  all: split; [footprint_case|].
  all: split; [footprint_case|].
  all: split; [footprint_case|].
  all: split; [footprint_case|].
  all: first [ left; split; solve [field_eq]
             | right; split; reflexivity ].
Qed.

(** 0xA123 on the fresh machine: the instruction sets I, and nothing of
    the speaker, the speed, the scale or the canvas. *)
Lemma instruction_footprint_witness :
  executeInstruction Chip8.noKey Chip8.zero 0xA123 Chip8.cpu
  = Ok (set_i (skip Chip8.cpu) 0x123) /\
  speaker (set_i (skip Chip8.cpu) 0x123) = speaker Chip8.cpu /\
  speed (set_i (skip Chip8.cpu) 0x123) = speed Chip8.cpu /\
  Renderer.scale (renderer (set_i (skip Chip8.cpu) 0x123))
  = Renderer.scale (renderer Chip8.cpu) /\
  Renderer.canvas (renderer (set_i (skip Chip8.cpu) 0x123))
  = Renderer.canvas (renderer Chip8.cpu).
Proof.
  assert (H : executeInstruction Chip8.noKey Chip8.zero 0xA123 Chip8.cpu
              = Ok (set_i (skip Chip8.cpu) 0x123)) by reflexivity.
  split; [exact H|].
  exact (proj1 (instruction_footprint _ _ _ _ _ H)).
Defined.

(** ** Typed arrays: reads after writes, and loops that fill a range *)
Section Arrays.

Implicit Types (l : list Z) (a idx val : Z).

Lemma get_set_eq l idx val :
  0 <= idx < Z.of_nat (length l) -> JS.get (JS.set l idx val) idx = Some (val mod 256).
Proof.
  intros H. unfold JS.get, JS.set. destruct (Z.leb_spec 0 idx); [|lia].
  apply list_lookup_insert_eq. lia.
Qed.

Lemma get_set_ne l idx val a : a <> idx -> JS.get (JS.set l idx val) a = JS.get l a.
Proof.
  intros H. unfold JS.get, JS.set.
  destruct (Z.leb_spec 0 idx), (Z.leb_spec 0 a); try reflexivity.
  apply list_lookup_insert_ne. lia.
Qed.

Lemma set_out_of_range l idx val :
  idx < 0 \/ Z.of_nat (length l) <= idx -> JS.set l idx val = l.
Proof.
  intros H. unfold JS.set. destruct (Z.leb_spec 0 idx); [|reflexivity].
  apply list_insert_ge. lia.
Qed.

Lemma get_out_of_range l a :
  a < 0 \/ Z.of_nat (length l) <= a -> JS.get l a = None.
Proof.
  intros H. unfold JS.get. destruct (Z.leb_spec 0 a); [|reflexivity].
  apply lookup_ge_None. lia.
Qed.

(** The loop [for (j = k; ...; j++) l[base + j] = g(j)], run [n] times. *)
Lemma length_fill_loop (g : Z -> Z) base n : forall k l,
  length (for_loop n k (fun j l => JS.set l (base + j) (g j)) l) = length l.
Proof.
  induction n as [|n IH]; intros k l; cbn [for_loop]; [reflexivity|].
  rewrite IH. apply length_set.
Qed.

Lemma fill_loop_out (g : Z -> Z) base n : forall k l a,
  a - base < k \/ k + Z.of_nat n <= a - base \/
  a < 0 \/ Z.of_nat (length l) <= a ->
  JS.get (for_loop n k (fun j l => JS.set l (base + j) (g j)) l) a = JS.get l a.
Proof.
  induction n as [|n IH]; intros k l a H; cbn [for_loop]; [reflexivity|].
  rewrite IH by (rewrite length_set; lia).
  destruct (Z.eq_dec a (base + k)) as [-> | Hne].
  - rewrite set_out_of_range by lia. reflexivity.
  - apply get_set_ne, Hne.
Qed.

Lemma fill_loop_in (g : Z -> Z) base n : forall k l a,
  k <= a - base < k + Z.of_nat n -> 0 <= a < Z.of_nat (length l) ->
  JS.get (for_loop n k (fun j l => JS.set l (base + j) (g j)) l) a
  = Some (g (a - base) mod 256).
Proof.
  induction n as [|n IH]; intros k l a Hw Ha; cbn [for_loop]; [lia|].
  destruct (Z.eq_dec a (base + k)) as [-> | Hne].
  - rewrite fill_loop_out by lia.
    replace (base + k - base) with k by lia. apply get_set_eq. lia.
  - apply IH; [lia | rewrite length_set; lia].
Qed.

(** A projection of the state that the body of a loop acts on by itself. *)
Lemma for_loop_proj {S T : Type} (proj : S -> T) body body' n : forall k s,
  (forall k s, proj (body k s) = body' k (proj s)) ->
  proj (for_loop n k body s) = for_loop n k body' (proj s).
Proof.
  induction n as [|n IH]; intros k s H; cbn [for_loop]; [reflexivity|].
  rewrite IH by assumption. rewrite H. reflexivity.
Qed.

(** Two bodies that agree on the states satisfying an invariant. *)
Lemma for_loop_ext {S : Type} (P : S -> Prop) body body' n : forall k s,
  P s ->
  (forall k s, P s -> body k s = body' k s /\ P (body k s)) ->
  for_loop n k body s = for_loop n k body' s.
Proof.
  induction n as [|n IH]; intros k s Hs H; cbn [for_loop]; [reflexivity|].
  destruct (H k s Hs) as [<- HP]. apply IH; assumption.
Qed.

End Arrays.

(** ** Loading the font and a program *)

Lemma loadSprites_memory s :
  memory (loadSpritesIntoMemory s)
  = for_loop (length sprites) 0
      (fun j l => JS.set l (0 + j) (JS.to_int (JS.get sprites j))) (memory s).
Proof. unfold loadSpritesIntoMemory. apply for_loop_proj; reflexivity. Qed.

Lemma loadSprites_font s k b :
  length (memory s) = 4096%nat -> sprites !! k = Some b ->
  JS.get (memory (loadSpritesIntoMemory s)) (Z.of_nat k) = Some b.
Proof.
  intros Hlen Hk. rewrite loadSprites_memory.
  assert (Hlt : (k < length sprites)%nat) by (eapply lookup_lt_Some; eassumption).
  change (length sprites) with 80%nat in *.
  rewrite fill_loop_in by lia.
  replace (Z.of_nat k - 0) with (Z.of_nat k) by lia.
  unfold JS.get. replace (0 <=? Z.of_nat k) with true by lia.
  rewrite Nat2Z.id, Hk. simpl. f_equal.
  assert (Hb : Forall (fun z => 0 <= z < 256) sprites)
    by (unfold sprites; repeat constructor; lia).
  apply Z.mod_small. eapply (Forall_lookup_1 _ _ _ _ Hb). exact Hk.
Qed.

Lemma loadSprites_length s :
  length (memory s) = 4096%nat ->
  length (memory (loadSpritesIntoMemory s)) = 4096%nat.
Proof. intros Hlen. rewrite loadSprites_memory, length_fill_loop. exact Hlen. Qed.

Lemma loadSprites_pc s : pc (loadSpritesIntoMemory s) = pc s.
Proof. unfold loadSpritesIntoMemory. apply for_loop_field; reflexivity. Qed.

(** [loadSpritesIntoMemory] writes the 80 bytes of the 16 glyphs at the
    addresses 0 to 79 and changes nothing else. *)
Theorem loadSpritesIntoMemory_spec s :
  length (memory s) = 4096%nat ->
  (forall k b, sprites !! k = Some b ->
               JS.get (memory (loadSpritesIntoMemory s)) (Z.of_nat k) = Some b) /\
  (forall a, 80 <= a -> JS.get (memory (loadSpritesIntoMemory s)) a = JS.get (memory s) a) /\
  length (memory (loadSpritesIntoMemory s)) = 4096%nat /\
  v (loadSpritesIntoMemory s) = v s /\ i (loadSpritesIntoMemory s) = i s /\
  pc (loadSpritesIntoMemory s) = pc s /\ stack (loadSpritesIntoMemory s) = stack s /\
  renderer (loadSpritesIntoMemory s) = renderer s.
Proof.
  intros Hlen.
  split; [intros k b Hk; apply loadSprites_font; assumption|].
  split; [|split; [apply loadSprites_length, Hlen|]].
  - intros a Ha. rewrite loadSprites_memory. apply fill_loop_out.
    change (length sprites) with 80%nat. lia.
  - unfold loadSpritesIntoMemory. repeat split; apply for_loop_field; reflexivity.
Qed.

Lemma loadProgram_memory program s :
  memory (loadProgramIntoMemory program s)
  = for_loop (length program) 0
      (fun j l => JS.set l (0x200 + j) (JS.to_int (JS.get program j))) (memory s).
Proof. unfold loadProgramIntoMemory. apply for_loop_proj; reflexivity. Qed.

Lemma loadProgram_cell program s k b :
  program !! k = Some b -> 0x200 + Z.of_nat k < 4096 ->
  length (memory s) = 4096%nat ->
  JS.get (memory (loadProgramIntoMemory program s)) (0x200 + Z.of_nat k)
  = Some (b mod 256).
Proof.
  intros Hk Hin Hlen. rewrite loadProgram_memory.
  assert (Hlt : (k < length program)%nat) by (eapply lookup_lt_Some; eassumption).
  rewrite fill_loop_in by lia.
  replace (0x200 + Z.of_nat k - 0x200) with (Z.of_nat k) by lia.
  unfold JS.get at 1. replace (0 <=? Z.of_nat k) with true by lia.
  rewrite Nat2Z.id, Hk. reflexivity.
Qed.

Lemma loadProgram_outside program s a :
  a < 0x200 \/ 0x200 + Z.of_nat (length program) <= a ->
  JS.get (memory (loadProgramIntoMemory program s)) a = JS.get (memory s) a.
Proof. intros Ha. rewrite loadProgram_memory. apply fill_loop_out. lia. Qed.

Lemma loadProgram_pc program s : pc (loadProgramIntoMemory program s) = pc s.
Proof. unfold loadProgramIntoMemory. apply for_loop_field; reflexivity. Qed.

(** A loop whose body only writes the memory only writes the memory. *)
Lemma for_loop_only_memory body n :
  (forall k s, body k s = set_memory s (memory (body k s))) ->
  forall k s, for_loop n k body s = set_memory s (memory (for_loop n k body s)).
Proof.
  intros Hbody. induction n as [|n IH]; intros k s; cbn [for_loop].
  - destruct s; reflexivity.
  - rewrite IH at 1. rewrite (Hbody k s) at 1. reflexivity.
Qed.

Lemma loadProgram_only_memory program s :
  loadProgramIntoMemory program s
  = set_memory s (memory (loadProgramIntoMemory program s)).
Proof.
  unfold loadProgramIntoMemory. apply for_loop_only_memory.
  intros k s'. reflexivity.
Qed.

(** [loadProgramIntoMemory] copies the bytes of the program to the
    addresses from 0x200 on; the bytes that would fall beyond the
    address 4095 are dropped without an error, and the memory keeps its
    size.  Nothing but the memory changes: the machine afterwards is the
    machine before with another memory. *)
Theorem loadProgramIntoMemory_spec program s :
  length (memory s) = 4096%nat ->
  (forall k b, program !! k = Some b -> 0x200 + Z.of_nat k < 4096 ->
     JS.get (memory (loadProgramIntoMemory program s)) (0x200 + Z.of_nat k)
     = Some (b mod 256)) /\
  (forall a, a < 0x200 \/ 0x200 + Z.of_nat (length program) <= a ->
     JS.get (memory (loadProgramIntoMemory program s)) a = JS.get (memory s) a) /\
  length (memory (loadProgramIntoMemory program s)) = 4096%nat /\
  loadProgramIntoMemory program s
  = set_memory s (memory (loadProgramIntoMemory program s)).
Proof.
  intros Hlen.
  split; [intros k b Hk Hin; apply loadProgram_cell; assumption|].
  split; [|split].
  - intros a Ha. apply loadProgram_outside, Ha.
  - rewrite loadProgram_memory, length_fill_loop. exact Hlen.
  - apply loadProgram_only_memory.
Qed.

(** A program of 4000 bytes: its byte 3583 lands on the last cell, its
    byte 3584 is dropped, and the font area is untouched. *)
Lemma loadProgramIntoMemory_spec_witness :
  JS.get (memory (loadProgramIntoMemory (replicate 4000 0xAB) Chip8.cpu)) 4095
  = Some 0xAB /\
  JS.get (memory (loadProgramIntoMemory (replicate 4000 0xAB) Chip8.cpu)) 0 = Some 0 /\
  length (memory (loadProgramIntoMemory (replicate 4000 0xAB) Chip8.cpu)) = 4096%nat.
Proof.
  destruct (loadProgramIntoMemory_spec (replicate 4000 0xAB) Chip8.cpu eq_refl)
    as (Hin & Hout & Hlen & _).
  split; [|split].
  - apply (Hin 3583%nat 0xAB); [|lia].
    apply lookup_replicate_2. lia.
  - rewrite Hout by lia. reflexivity.
  - exact Hlen.
Defined.

(** ** Fetching *)

Lemma lor_shiftl_8 hi lo :
  0 <= lo < 256 -> Z.lor (Z.shiftl hi 8) lo = hi * 256 + lo.
Proof.
  intros Hlo. rewrite Z.shiftl_mul_pow2 by lia. change (2 ^ 8) with 256.
  rewrite <- Z.lxor_lor, <- Z.add_nocarry_lxor; try reflexivity.
  all: apply Z.bits_inj'; intros n Hn; rewrite Z.land_spec, Z.bits_0;
    destruct (Z.ltb_spec n 8);
    [ replace 256 with (2 ^ 8) by reflexivity;
      rewrite Z.mul_pow2_bits_low by lia; reflexivity
    | replace (Z.testbit lo n) with false;
      [ apply andb_false_r
      | symmetry; apply Z.bits_above_log2; [lia|];
        destruct (Z.eq_dec lo 0) as [-> | Hne]; [simpl; lia|];
        apply Z.log2_lt_pow2; [lia|];
        apply Z.lt_le_trans with (2 ^ 8); [simpl; lia|];
        apply Z.pow_le_mono_r; lia ] ].
Qed.

Lemma fetch_bytes s p hi lo :
  pc s = JS.Num p ->
  JS.to_int (JS.get (memory s) p) = hi -> JS.to_int (JS.get (memory s) (p + 1)) = lo ->
  0 <= lo < 256 ->
  fetch s = hi * 256 + lo.
Proof.
  intros Hpc Hhi Hlo Hb. unfold fetch. rewrite Hpc. simpl.
  rewrite Hhi, Hlo. apply lor_shiftl_8, Hb.
Qed.

Lemma fetch_at s p :
  Inv.wf s -> pc s = JS.Num p -> fetch s = getMem s p * 256 + getMem s (p + 1).
Proof.
  intros Hwf Hp. apply (fetch_bytes s p); try reflexivity; [exact Hp|].
  apply (getMem_byte s (p + 1) Hwf).
Qed.

Lemma fetch_no_address s : (forall p, pc s <> JS.Num p) -> fetch s = 0.
Proof.
  intros Hno. unfold fetch. destruct (pc s) as [| |p]; try reflexivity.
  destruct (Hno p eq_refl).
Qed.

Lemma fetch_outside s :
  Inv.wf s -> (forall p, pc s = JS.Num p -> 4096 <= p) -> fetch s = 0.
Proof.
  intros Hwf Hout. destruct (pc s) as [| |p] eqn:Hp.
  - apply fetch_no_address. rewrite Hp. intros p. discriminate.
  - apply fetch_no_address. rewrite Hp. intros p. discriminate.
  - rewrite (fetch_at s p Hwf Hp). specialize (Hout p eq_refl).
    destruct Hwf as (_ & Hlen & _).
    unfold getMem. rewrite !get_out_of_range by lia. reflexivity.
Qed.

(** The word fetched is the byte at PC times 256 plus the byte at
    PC + 1, a cell outside the memory counting as 0; on a well-formed
    machine it is a 16-bit word, and it is 0 when PC is at or beyond
    4096, [undefined] or [NaN]. *)
Theorem fetch_is_big_endian s :
  Inv.wf s ->
  (forall p, pc s = JS.Num p -> fetch s = getMem s p * 256 + getMem s (p + 1)) /\
  0 <= fetch s < 65536 /\
  ((forall p, pc s = JS.Num p -> 4096 <= p) -> fetch s = 0).
Proof.
  intros Hwf.
  split; [intros p Hp; apply fetch_at; assumption|].
  split; [|apply fetch_outside, Hwf].
  destruct (pc s) as [| |p] eqn:Hp.
  - rewrite fetch_no_address by (rewrite Hp; intros p; discriminate). lia.
  - rewrite fetch_no_address by (rewrite Hp; intros p; discriminate). lia.
  - rewrite (fetch_at s p Hwf Hp).
    pose proof (getMem_byte s p Hwf) as H1.
    pose proof (getMem_byte s (p + 1) Hwf) as H2.
    unfold Inv.byte in *. lia.
Qed.

Lemma fetch_is_big_endian_witness :
  fetch (Chip8.init [0x12; 0x34]) = 0x1234 /\
  0 <= fetch (Chip8.init [0x12; 0x34]) < 65536.
Proof.
  destruct (fetch_is_big_endian (Chip8.init [0x12; 0x34])) as (Hnum & Hr & _).
  - apply wf_loadProgramIntoMemory, wf_loadSpritesIntoMemory, wf_new.
  - split; [|exact Hr]. rewrite (Hnum 0x200 eq_refl). reflexivity.
Defined.

Lemma init_pc program : pc (Chip8.init program) = JS.Num 0x200.
Proof. unfold Chip8.init. rewrite loadProgram_pc, loadSprites_pc. reflexivity. Qed.

Lemma init_fetch hi lo rest :
  fetch (Chip8.init (hi :: lo :: rest)) = hi mod 256 * 256 + lo mod 256.
Proof.
  pose proof (loadSprites_length Chip8.cpu eq_refl) as Hlen.
  apply (fetch_bytes _ 0x200).
  - apply init_pc.
  - unfold Chip8.init.
    pose proof (loadProgram_cell (hi :: lo :: rest) _ 0%nat hi eq_refl
                  ltac:(simpl; lia) Hlen) as H0.
    change (0x200 + Z.of_nat 0) with 0x200 in H0. rewrite H0. reflexivity.
  - unfold Chip8.init.
    pose proof (loadProgram_cell (hi :: lo :: rest) _ 1%nat lo eq_refl
                  ltac:(simpl; lia) Hlen) as H1.
    change (0x200 + Z.of_nat 1) with (0x200 + 1) in H1. rewrite H1. reflexivity.
  - apply Z.mod_pos_bound. lia.
Qed.


(** ** Running off the memory *)

Lemma iter_add_Num n : forall p,
  Nat.iter n (fun q => JS.add q 2) (JS.Num p) = JS.Num (p + 2 * Z.of_nat n).
Proof.
  induction n as [|n IH]; intros p.
  - simpl. f_equal. lia.
  - rewrite Nat.iter_succ_r. simpl JS.add. rewrite IH. f_equal. lia.
Qed.

Lemma iter_add_NaN n : Nat.iter n (fun q => JS.add q 2) JS.NaN = JS.NaN.
Proof. induction n as [|n IH]; [reflexivity|]. simpl. rewrite IH. reflexivity. Qed.

Lemma cycleLoop_outside isKeyPressed rnd n : forall j s,
  Inv.wf s -> paused s = false ->
  (forall p, pc s = JS.Num p -> 4096 <= p) ->
  cycleLoop isKeyPressed rnd n j s
  = Ok (set_pc s (Nat.iter n (fun q => JS.add q 2) (pc s))).
Proof.
  induction n as [|n IH]; intros j s Hwf Hp Hout.
  - destruct s; reflexivity.
  - cbn [cycleLoop]. rewrite Hp.
    rewrite (fetch_outside s Hwf Hout).
    change (executeInstruction isKeyPressed (rnd j) 0 s) with (Ok (skip s)).
    cbv beta iota. rewrite IH.
    + rewrite Nat.iter_succ_r. reflexivity.
    + exact Hwf.
    + exact Hp.
    + intros p. unfold skip; simpl. destruct (pc s) as [| |q] eqn:E; try discriminate.
      intros [= <-]. specialize (Hout q eq_refl). lia.
Qed.

(** Once PC is at or beyond the end of the memory, every step fetches
    the word 0, which matches no instruction, and only moves PC on by
    2: the machine never changes again and nothing is raised.  After PC
    has become [undefined] (a return on an empty stack) it is [NaN] for
    ever. *)
Theorem running_off_the_memory isKeyPressed rnd n j s :
  Inv.wf s -> paused s = false ->
  (forall p, pc s = JS.Num p -> 4096 <= p ->
     cycleLoop isKeyPressed rnd n j s = Ok (set_pc s (JS.Num (p + 2 * Z.of_nat n)))) /\
  (pc s = JS.Undefined \/ pc s = JS.NaN -> (0 < n)%nat ->
     cycleLoop isKeyPressed rnd n j s = Ok (set_pc s JS.NaN)).
Proof.
  intros Hwf Hp. split.
  - intros p Hpc Hge. rewrite cycleLoop_outside; try assumption.
    + rewrite Hpc, iter_add_Num. reflexivity.
    + intros q. rewrite Hpc. intros [= <-]. exact Hge.
  - intros Hpc Hn. rewrite cycleLoop_outside; try assumption.
    + destruct n as [|n]; [lia|]. rewrite Nat.iter_succ_r.
      destruct Hpc as [-> | ->]; simpl JS.add; rewrite iter_add_NaN; reflexivity.
    + intros q. destruct Hpc as [-> | ->]; discriminate.
Qed.

(** A jump V0 + 0xFFF with 3 in V0 leaves the memory; and the return on
    the empty stack of a new machine. *)
Lemma running_off_the_memory_witness :
  cycleLoop Chip8.noKey (fun _ => Chip8.zero) 10 0 (set_pc Chip8.cpu (JS.Num 0x1002))
  = Ok (set_pc Chip8.cpu (JS.Num 0x1016)) /\
  cycleLoop Chip8.noKey (fun _ => Chip8.zero) 10 0 (set_pc Chip8.cpu JS.Undefined)
  = Ok (set_pc Chip8.cpu JS.NaN).
Proof.
  split.
  - apply (proj1 (running_off_the_memory Chip8.noKey (fun _ => Chip8.zero) 10 0
                    (set_pc Chip8.cpu (JS.Num 0x1002))
                    (wf_new 10) eq_refl) 0x1002 eq_refl).
    lia.
  - apply (proj2 (running_off_the_memory Chip8.noKey (fun _ => Chip8.zero) 10 0
                    (set_pc Chip8.cpu JS.Undefined)
                    (wf_new 10) eq_refl)); [left; reflexivity | lia].
Defined.

(** ** Sound and picture after a frame *)

Lemma cycleLoop_speaker isKeyPressed rnd n : forall j s s',
  cycleLoop isKeyPressed rnd n j s = Ok s' -> speaker s' = speaker s.
Proof.
  induction n as [|n IH]; intros j s s'; cbn [cycleLoop].
  - intros [= <-]. reflexivity.
  - destruct (paused s); [apply IH|].
    destruct (executeInstruction isKeyPressed (rnd j) (fetch s) s) as [s1|e] eqn:E;
      [|discriminate].
    intros H. rewrite (IH _ _ _ H).
    apply (executeInstruction_speaker _ _ _ _ _ E).
Qed.

Lemma render_render r : Renderer.render (Renderer.render r) = Renderer.render r.
Proof.
  unfold Renderer.render, Renderer.set_canvas.
  cbn [Renderer.display Renderer.scale]. reflexivity.
Qed.

(** After every frame cycle the tone is on exactly when the sound timer
    is positive; an oscillator that was already running keeps its
    frequency and a new one has 440 Hz; and the canvas is the picture of
    the display. *)
Theorem cycle_outputs isKeyPressed rnd s s' :
  cycle isKeyPressed rnd s = Ok s' ->
  (Speaker.oscillator (speaker s') <> None <-> 0 < soundTimer s') /\
  (0 < soundTimer s' ->
   Speaker.oscillator (speaker s')
   = Some (default 440 (Speaker.oscillator (speaker s)))) /\
  Renderer.canvas (renderer s')
  = Renderer.canvas (Renderer.render (renderer s')).
Proof.
  unfold cycle.
  destruct (cycleLoop isKeyPressed rnd (Z.to_nat (speed s)) 0 s) as [s1|e] eqn:E;
    [|discriminate].
  apply cycleLoop_speaker in E. intros [= <-].
  set (s2 := if paused s1 then s1 else updateTimers s1).
  assert (Hsp : speaker s2 = speaker s).
  { unfold s2, updateTimers. rewrite <- E.
    destruct (paused s1), (0 <? delayTimer s1); cbn [soundTimer set_delayTimer];
      try destruct (0 <? soundTimer s1); reflexivity. }
  cbn [speaker soundTimer renderer set_renderer].
  rewrite render_render.
  split; [|split; [|reflexivity]].
  - unfold playSound.
    destruct (Z.ltb_spec 0 (soundTimer s2)) as [Hpos | Hzero];
      cbn [speaker soundTimer set_speaker].
    + rewrite Hsp. unfold Speaker.play.
      destruct (Speaker.oscillator (speaker s)) eqn:Ho;
        cbn [Speaker.oscillator]; rewrite ?Ho;
        (split; [intros _; exact Hpos | intros _; discriminate]).
    + unfold Speaker.stop. cbn [Speaker.oscillator].
      split; [intros H; destruct (H eq_refl) | lia].
  - unfold playSound.
    destruct (Z.ltb_spec 0 (soundTimer s2)) as [Hpos | Hzero];
      cbn [speaker soundTimer set_speaker]; [|lia].
    intros _. rewrite Hsp. unfold Speaker.play.
    destruct (Speaker.oscillator (speaker s)) eqn:Ho;
      cbn [Speaker.oscillator]; rewrite ?Ho; reflexivity.
Qed.

(** A frame of the machine with the sound timer at 3: the timer goes to
    2 and the tone starts at 440 Hz. *)
Lemma cycle_outputs_witness :
  exists s',
    cycle Chip8.noKey (fun _ => Chip8.zero) (set_soundTimer Chip8.cpu 3) = Ok s' /\
    soundTimer s' = 2 /\ Speaker.oscillator (speaker s') = Some 440.
Proof.
  destruct (cycle_never_throws Chip8.noKey (fun _ => Chip8.zero)
              (set_soundTimer Chip8.cpu 3)) as [s' Hs'].
  exists s'. pose proof (cycle_outputs _ _ _ _ Hs') as (_ & Hf & _).
  assert (Ht : soundTimer s' = 2)
    by (vm_compute in Hs'; injection Hs' as <-; reflexivity).
  split; [exact Hs'|]. split; [exact Ht|].
  rewrite Hf by lia. reflexivity.
Defined.

(** ** Frames that run before the program arrives *)

Section EarlyFrames.

Implicit Types (s : CPU.t).






End EarlyFrames.



(** ** More instructions *)

Ltac dispatch_op :=
  intros; unfold executeInstruction;
  repeat match goal with
         | H : Z.land _ _ = _ |- _ => rewrite H; clear H
         end;
  reflexivity.

Section MoreDispatch.

Variables (isKeyPressed : Z -> bool) (u : JS.unit_double).
Implicit Types (s : CPU.t) (opcode : Z).

Lemma exec_LD_byte opcode s :
  Z.land opcode 0xF000 = 0x6000 ->
  executeInstruction isKeyPressed u opcode s
  = Ok (setV (skip s) (opX opcode) (Z.land opcode 0xFF)).
Proof. dispatch_op. Qed.

Lemma exec_ADD_byte opcode s :
  Z.land opcode 0xF000 = 0x7000 ->
  executeInstruction isKeyPressed u opcode s
  = Ok (setV (skip s) (opX opcode) (getV (skip s) (opX opcode) + Z.land opcode 0xFF)).
Proof. dispatch_op. Qed.

Lemma exec_OR opcode s :
  Z.land opcode 0xF000 = 0x8000 -> Z.land opcode 0xF = 0x1 ->
  executeInstruction isKeyPressed u opcode s
  = Ok (setV (skip s) (opX opcode)
          (Z.lor (getV (skip s) (opX opcode)) (getV (skip s) (opY opcode)))).
Proof. dispatch_op. Qed.

Lemma exec_AND opcode s :
  Z.land opcode 0xF000 = 0x8000 -> Z.land opcode 0xF = 0x2 ->
  executeInstruction isKeyPressed u opcode s
  = Ok (setV (skip s) (opX opcode)
          (Z.land (getV (skip s) (opX opcode)) (getV (skip s) (opY opcode)))).
Proof. dispatch_op. Qed.

Lemma exec_XOR opcode s :
  Z.land opcode 0xF000 = 0x8000 -> Z.land opcode 0xF = 0x3 ->
  executeInstruction isKeyPressed u opcode s
  = Ok (setV (skip s) (opX opcode)
          (Z.lxor (getV (skip s) (opX opcode)) (getV (skip s) (opY opcode)))).
Proof. dispatch_op. Qed.

Lemma exec_SUBN_xy opcode s :
  Z.land opcode 0xF000 = 0x8000 -> Z.land opcode 0xF = 0x7 ->
  executeInstruction isKeyPressed u opcode s
  = Ok (SUBN_xy (opX opcode) (opY opcode) (skip s)).
Proof. dispatch_op. Qed.

Lemma exec_SE_byte opcode s :
  Z.land opcode 0xF000 = 0x3000 ->
  executeInstruction isKeyPressed u opcode s
  = Ok (if getV s (opX opcode) =? Z.land opcode 0xFF then skip (skip s) else skip s).
Proof. dispatch_op. Qed.

Lemma exec_SNE_byte opcode s :
  Z.land opcode 0xF000 = 0x4000 ->
  executeInstruction isKeyPressed u opcode s
  = Ok (if getV s (opX opcode) =? Z.land opcode 0xFF then skip s else skip (skip s)).
Proof. dispatch_op. Qed.

Lemma exec_SE_xy opcode s :
  Z.land opcode 0xF000 = 0x5000 ->
  executeInstruction isKeyPressed u opcode s
  = Ok (if getV s (opX opcode) =? getV s (opY opcode) then skip (skip s) else skip s).
Proof. dispatch_op. Qed.

Lemma exec_SNE_xy opcode s :
  Z.land opcode 0xF000 = 0x9000 ->
  executeInstruction isKeyPressed u opcode s
  = Ok (if getV s (opX opcode) =? getV s (opY opcode) then skip s else skip (skip s)).
Proof. dispatch_op. Qed.

Lemma exec_SKP opcode s :
  Z.land opcode 0xF000 = 0xE000 -> Z.land opcode 0xFF = 0x9E ->
  executeInstruction isKeyPressed u opcode s
  = Ok (if isKeyPressed (getV s (opX opcode)) then skip (skip s) else skip s).
Proof. dispatch_op. Qed.

Lemma exec_SKNP opcode s :
  Z.land opcode 0xF000 = 0xE000 -> Z.land opcode 0xFF = 0xA1 ->
  executeInstruction isKeyPressed u opcode s
  = Ok (if isKeyPressed (getV s (opX opcode)) then skip s else skip (skip s)).
Proof. dispatch_op. Qed.

Lemma exec_LD_Vx_DT opcode s :
  Z.land opcode 0xF000 = 0xF000 -> Z.land opcode 0xFF = 0x07 ->
  executeInstruction isKeyPressed u opcode s
  = Ok (setV (skip s) (opX opcode) (delayTimer s)).
Proof. dispatch_op. Qed.

Lemma exec_LD_K opcode s :
  Z.land opcode 0xF000 = 0xF000 -> Z.land opcode 0xFF = 0x0A ->
  executeInstruction isKeyPressed u opcode s = Ok (LD_K (opX opcode) (skip s)).
Proof. dispatch_op. Qed.

Lemma exec_LD_DT_Vx opcode s :
  Z.land opcode 0xF000 = 0xF000 -> Z.land opcode 0xFF = 0x15 ->
  executeInstruction isKeyPressed u opcode s
  = Ok (set_delayTimer (skip s) (getV s (opX opcode))).
Proof. dispatch_op. Qed.

Lemma exec_LD_F opcode s :
  Z.land opcode 0xF000 = 0xF000 -> Z.land opcode 0xFF = 0x29 ->
  executeInstruction isKeyPressed u opcode s
  = Ok (set_i (skip s) (getV s (opX opcode) * 5)).
Proof. dispatch_op. Qed.

Lemma exec_LD_B opcode s :
  Z.land opcode 0xF000 = 0xF000 -> Z.land opcode 0xFF = 0x33 ->
  executeInstruction isKeyPressed u opcode s = Ok (LD_B (opX opcode) (skip s)).
Proof. dispatch_op. Qed.

End MoreDispatch.

Section MemoryCells.

Implicit Types (s : CPU.t) (a b val : Z).

Lemma getMem_setMem_eq s a val :
  0 <= a < Z.of_nat (length (memory s)) -> getMem (setMem s a val) a = val mod 256.
Proof.
  intros H. unfold getMem, setMem; simpl. rewrite get_set_eq by assumption.
  reflexivity.
Qed.

Lemma getMem_setMem_ne s a b val : b <> a -> getMem (setMem s a val) b = getMem s b.
Proof.
  intros H. unfold getMem, setMem; simpl. rewrite get_set_ne by assumption.
  reflexivity.
Qed.

Lemma byte_mod_small z : Inv.byte z -> z mod 256 = z.
Proof. intros H. apply Z.mod_small, H. Qed.

End MemoryCells.

(** Fx33 writes the hundreds, tens and ones digits of Vx at I, I + 1
    and I + 2, each digit whose cell lies inside the memory being
    stored whether or not the others are, so that these three decimal
    digits give back Vx; the memory keeps its size, and no other cell
    and no register changes. *)
Theorem LD_B_stores_decimal_digits isKeyPressed u opcode s a :
  Z.land opcode 0xF000 = 0xF000 -> Z.land opcode 0xFF = 0x33 ->
  Inv.wf s -> getV s (opX opcode) = a ->
  exists s', executeInstruction isKeyPressed u opcode s = Ok s' /\
    (i s < 4096 -> getMem s' (i s) = a / 100) /\
    (i s + 1 < 4096 -> getMem s' (i s + 1) = a / 10 mod 10) /\
    (i s + 2 < 4096 -> getMem s' (i s + 2) = a mod 10) /\
    length (memory s') = length (memory s) /\
    a = 100 * (a / 100) + 10 * (a / 10 mod 10) + a mod 10 /\
    0 <= a / 100 <= 2 /\ 0 <= a / 10 mod 10 <= 9 /\ 0 <= a mod 10 <= 9 /\
    (forall b, b < i s \/ i s + 2 < b -> getMem s' b = getMem s b) /\
    v s' = v s /\ i s' = i s.
Proof.
  intros Hop Hlow Hwf Ha. rewrite exec_LD_B by assumption.
  eexists; split; [reflexivity|].
  pose proof (getV_byte s (opX opcode) Hwf) as Hb. rewrite Ha in Hb.
  unfold Inv.byte in Hb.
  destruct Hwf as (_ & Hlen & _ & _ & _ & _ & Hi & _).
  unfold LD_B. cbn [i setMem set_memory skip set_pc].
  rewrite !getV_skip.
  assert (HgetV : forall s1 b val, getV (setMem s1 b val) (opX opcode) = getV s1 (opX opcode))
    by reflexivity.
  rewrite !HgetV, getV_skip, Ha.
  set (s0 := skip s).
  assert (Hlen0 : length (memory s0) = 4096%nat) by exact Hlen.
  assert (Hl1 : length (memory (setMem s0 (i s) (a / 100))) = 4096%nat)
    by (rewrite length_setMem; exact Hlen0).
  assert (Hl2 : length (memory (setMem (setMem s0 (i s) (a / 100)) (i s + 1)
                                  (a mod 100 / 10))) = 4096%nat)
    by (rewrite length_setMem; exact Hl1).
  split; [|split; [|split; [|split; [|split; [|split; [|split; [|split; [|split]]]]]]]].
  - intros Hin. rewrite !getMem_setMem_ne by lia.
    rewrite getMem_setMem_eq by lia.
    apply Z.mod_small. Z.div_mod_to_equations. lia.
  - intros Hin. rewrite getMem_setMem_ne by lia.
    rewrite getMem_setMem_eq by lia.
    rewrite Z.mod_small by (Z.div_mod_to_equations; lia).
    Z.div_mod_to_equations. lia.
  - intros Hin. rewrite getMem_setMem_eq by lia.
    apply Z.mod_small. Z.div_mod_to_equations. lia.
  - rewrite !length_setMem. reflexivity.
  - Z.div_mod_to_equations. lia.
  - Z.div_mod_to_equations. lia.
  - Z.div_mod_to_equations. lia.
  - Z.div_mod_to_equations. lia.
  - intros b Hb'. rewrite !getMem_setMem_ne by lia. reflexivity.
  - split; reflexivity.
Qed.

(** 0xF033 with 254 in V0 and I = 0xFFE: the digits 2 and 5 go to the
    last two cells and the digit 4, which has no cell, is dropped. *)
Lemma LD_B_stores_decimal_digits_witness :
  exists s',
    executeInstruction Chip8.noKey Chip8.zero 0xF033
      (set_i (setV Chip8.cpu 0 254) 0xFFE) = Ok s' /\
    getMem s' 0xFFE = 2 /\ getMem s' 0xFFF = 5 /\
    length (memory s') = 4096%nat.
Proof.
  destruct (LD_B_stores_decimal_digits Chip8.noKey Chip8.zero 0xF033
              (set_i (setV Chip8.cpu 0 254) 0xFFE) 254 eq_refl eq_refl)
    as (s' & He & H0 & H1 & _ & Hlen & _).
  - apply wf_set_i; [lia|]. apply wf_setV, wf_new.
  - reflexivity.
  - exists s'. split; [exact He|].
    split; [apply H0; simpl; lia|]. split; [apply H1; simpl; lia|].
    rewrite Hlen. reflexivity.
Defined.

(** ** Block copies between registers and memory *)
Section BlockCopy.

Implicit Types (s : CPU.t) (x r : Z).

Lemma LD_I_Vx_memory x s :
  memory (LD_I_Vx x s)
  = for_loop (Z.to_nat (x + 1)) 0
      (fun j l => JS.set l (i s + j) (getV s j)) (memory s).
Proof.
  unfold LD_I_Vx.
  rewrite (for_loop_ext (fun s' => v s' = v s /\ i s' = i s) _
             (fun j s' => setMem s' (i s + j) (getV s j))).
  - apply for_loop_proj. reflexivity.
  - split; reflexivity.
  - intros k s' [Hv Hi]. split; [|split; assumption].
    unfold getV. rewrite Hv, Hi. reflexivity.
Qed.

Lemma LD_Vx_I_registers x s :
  v (LD_Vx_I x s)
  = for_loop (Z.to_nat (x + 1)) 0
      (fun j l => JS.set l (0 + j) (getMem s (i s + j))) (v s).
Proof.
  unfold LD_Vx_I.
  rewrite (for_loop_ext (fun s' => memory s' = memory s /\ i s' = i s) _
             (fun j s' => setV s' j (getMem s (i s + j)))).
  - apply for_loop_proj. reflexivity.
  - split; reflexivity.
  - intros k s' [Hm Hi]. split; [|split; assumption].
    unfold getMem. rewrite Hm, Hi. reflexivity.
Qed.

End BlockCopy.

(** Fx55 copies V0..Vx to the cells I..I+x (those inside the memory)
    and changes no other cell and no register; Fx65 copies the cells
    I..I+x to V0..Vx, a cell beyond the memory giving 0, and changes no
    other register and no cell; storing and then loading gives back
    every register. *)
Theorem block_copy_contents :
  (forall isKeyPressed u opcode s s',
      Z.land opcode 0xF000 = 0xF000 -> Z.land opcode 0xFF = 0x55 -> Inv.wf s ->
      executeInstruction isKeyPressed u opcode s = Ok s' ->
      (forall r, 0 <= r <= opX opcode -> i s + r < 4096 ->
                 getMem s' (i s + r) = getV s r) /\
      (forall a, a < i s \/ i s + opX opcode < a -> getMem s' a = getMem s a) /\
      v s' = v s) /\
  (forall isKeyPressed u opcode s s',
      Z.land opcode 0xF000 = 0xF000 -> Z.land opcode 0xFF = 0x65 -> Inv.wf s ->
      executeInstruction isKeyPressed u opcode s = Ok s' ->
      (forall r, 0 <= r <= opX opcode -> getV s' r = getMem s (i s + r)) /\
      (forall z, opX opcode < z -> getV s' z = getV s z) /\
      memory s' = memory s) /\
  (forall isKeyPressed u store load s s1 s2,
      Z.land store 0xF000 = 0xF000 -> Z.land store 0xFF = 0x55 ->
      Z.land load 0xF000 = 0xF000 -> Z.land load 0xFF = 0x65 ->
      opX load = opX store -> Inv.wf s -> i s + opX store < 4096 ->
      executeInstruction isKeyPressed u store s = Ok s1 ->
      executeInstruction isKeyPressed u load s1 = Ok s2 ->
      forall z, getV s2 z = getV s z).
Proof.
  assert (Hstore : forall isKeyPressed u opcode s s',
      Z.land opcode 0xF000 = 0xF000 -> Z.land opcode 0xFF = 0x55 -> Inv.wf s ->
      executeInstruction isKeyPressed u opcode s = Ok s' ->
      (forall r, 0 <= r <= opX opcode -> i s + r < 4096 ->
                 getMem s' (i s + r) = getV s r) /\
      (forall a, a < i s \/ i s + opX opcode < a -> getMem s' a = getMem s a) /\
      v s' = v s).
  { intros k u opcode s s' Hop Hlow Hwf. rewrite exec_LD_I_Vx by assumption.
    intros [= <-]. pose proof (opX_range opcode) as Hx.
    assert (Hi : 0 <= i s) by apply Hwf.
    assert (Hlen : length (memory s) = 4096%nat) by apply Hwf.
    unfold getMem. rewrite LD_I_Vx_memory.
    cbn [i memory skip set_pc]. split; [|split].
    - intros r Hr Hin. rewrite fill_loop_in by lia.
      replace (i s + r - i s) with r by lia. rewrite getV_skip. simpl.
      apply byte_mod_small, getV_byte, Hwf.
    - intros a Ha. rewrite fill_loop_out by lia. reflexivity.
    - unfold LD_I_Vx. change (v s) with (v (skip s)).
      apply (for_loop_field v). reflexivity. }
  assert (Hload : forall isKeyPressed u opcode s s',
      Z.land opcode 0xF000 = 0xF000 -> Z.land opcode 0xFF = 0x65 -> Inv.wf s ->
      executeInstruction isKeyPressed u opcode s = Ok s' ->
      (forall r, 0 <= r <= opX opcode -> getV s' r = getMem s (i s + r)) /\
      (forall z, opX opcode < z -> getV s' z = getV s z) /\
      memory s' = memory s).
  { intros k u opcode s s' Hop Hlow Hwf. rewrite exec_LD_Vx_I by assumption.
    intros [= <-]. pose proof (opX_range opcode) as Hx.
    assert (Hlen : length (v s) = 16%nat) by apply Hwf.
    unfold getV. rewrite LD_Vx_I_registers.
    cbn [i v skip set_pc]. split; [|split].
    - intros r Hr. rewrite fill_loop_in by lia.
      replace (r - 0) with r by lia. simpl.
      apply byte_mod_small. apply (getMem_byte (skip s)), Hwf.
    - intros z Hz. rewrite fill_loop_out by lia. reflexivity.
    - unfold LD_Vx_I. change (memory s) with (memory (skip s)).
      apply (for_loop_field memory). reflexivity. }
  split; [exact Hstore|]. split; [exact Hload|].
  intros k u store load s s1 s2 Hs1 Hs2 Hl1 Hl2 Hx Hwf Hin He1 He2 z.
  pose proof (executeInstruction_wf _ _ _ _ _ Hwf He1) as Hwf1.
  destruct (Hstore _ _ _ _ _ Hs1 Hs2 Hwf He1) as (Hcells & _ & Hv1).
  destruct (Hload _ _ _ _ _ Hl1 Hl2 Hwf1 He2) as (Hregs & Hrest & _).
  assert (Hi1 : i s1 = i s).
  { rewrite exec_LD_I_Vx in He1 by assumption. injection He1 as <-.
    unfold LD_I_Vx. change (i s) with (i (skip s)).
    apply (for_loop_field i). reflexivity. }
  assert (Hsame : forall w, getV s1 w = getV s w)
    by (intros w; unfold getV; rewrite Hv1; reflexivity).
  pose proof (opX_range store) as Hxr.
  destruct (Z.le_gt_cases z (opX load)) as [Hle | Hgt].
  - destruct (Z.le_gt_cases 0 z) as [Hz | Hz].
    + rewrite Hregs by lia. rewrite Hi1. apply Hcells; lia.
    + unfold getV, JS.get. replace (0 <=? z) with false by lia. reflexivity.
  - rewrite Hrest by lia. apply Hsame.
Qed.

(** V0..V2 stored at 0x300 by 0xF255 and loaded back by 0xF265 after
    the registers have been cleared. *)
Lemma block_copy_contents_witness :
  exists s1 s2,
    executeInstruction Chip8.noKey Chip8.zero 0xF255
      (set_i (setV (setV Chip8.cpu 0 7) 2 9) 0x300) = Ok s1 /\
    executeInstruction Chip8.noKey Chip8.zero 0xF265 s1 = Ok s2 /\
    getMem s1 0x302 = 9 /\
    forall z, getV s2 z = getV (set_i (setV (setV Chip8.cpu 0 7) 2 9) 0x300) z.
Proof.
  pose proof block_copy_contents as (Hstore & _ & Hround).
  assert (Hwf : Inv.wf (set_i (setV (setV Chip8.cpu 0 7) 2 9) 0x300))
    by (apply wf_set_i; [lia|]; apply wf_setV, wf_setV, wf_new).
  destruct (executeInstruction_never_throws Chip8.noKey Chip8.zero 0xF255
              (set_i (setV (setV Chip8.cpu 0 7) 2 9) 0x300)) as [s1 H1].
  destruct (executeInstruction_never_throws Chip8.noKey Chip8.zero 0xF265 s1)
    as [s2 H2].
  exists s1, s2. split; [exact H1|]. split; [exact H2|]. split.
  - destruct (Hstore Chip8.noKey Chip8.zero 0xF255 _ s1 eq_refl eq_refl Hwf H1)
      as (Hc & _).
    apply (Hc 2); [change (opX 0xF255) with 2; lia | simpl; lia].
  - apply (Hround Chip8.noKey Chip8.zero 0xF255 0xF265 _ s1 s2);
      try reflexivity; try assumption.
Defined.

(** ** Arithmetic and logic on registers *)

(** 8xy7, for [x] and [y] other than 0xF: SUBN Vx, Vy stores
    [(b - a) mod 256] in Vx, where [a] was in Vx and [b] in Vy, and
    sets VF to 1 if [b > a] and to 0 otherwise. *)
Theorem SUBN_Vx_Vy_difference_and_flag isKeyPressed u opcode s a b :
  Z.land opcode 0xF000 = 0x8000 -> Z.land opcode 0xF = 0x7 ->
  length (v s) = 16%nat ->
  opX opcode <> 0xF -> opY opcode <> 0xF ->
  getV s (opX opcode) = a -> getV s (opY opcode) = b ->
  exists s', executeInstruction isKeyPressed u opcode s = Ok s' /\
    getV s' (opX opcode) = (b - a) mod 256 /\
    getV s' 0xF = (if a <? b then 1 else 0).
Proof.
  intros Hop Hlow Hlen Hnx Hny <- <-.
  rewrite exec_SUBN_xy by assumption. eexists; split; [reflexivity|].
  pose proof (opX_range opcode). unfold SUBN_xy. regs.
  destruct (getV s (opX opcode) <? getV s (opY opcode)); regs; auto.
Qed.

Lemma SUBN_Vx_Vy_difference_and_flag_witness :
  exists s',
    executeInstruction Chip8.noKey Chip8.zero 0x8017
      (setV (setV Chip8.cpu 0 3) 1 5) = Ok s' /\
    getV s' 0 = 2 /\ getV s' 0xF = 1.
Proof.
  apply (SUBN_Vx_Vy_difference_and_flag Chip8.noKey Chip8.zero 0x8017
           (setV (setV Chip8.cpu 0 3) 1 5) 3 5);
    first [reflexivity | discriminate].
Defined.

Lemma byte_high_bits z n : Inv.byte z -> 8 <= n -> Z.testbit z n = false.
Proof.
  intros Hz Hn. rewrite <- (Z.mod_small z (2 ^ 8)) by exact Hz.
  apply Z.mod_pow2_bits_high. lia.
Qed.

Lemma byte_of_bits z :
  0 <= z -> (forall n, 8 <= n -> Z.testbit z n = false) -> Inv.byte z.
Proof.
  intros Hz Hbits.
  assert (Heq : z mod 2 ^ 8 = z).
  { apply Z.bits_inj'. intros n Hn. destruct (Z.ltb_spec n 8).
    - apply Z.mod_pow2_bits_low. lia.
    - rewrite Z.mod_pow2_bits_high by lia. symmetry. apply Hbits. lia. }
  rewrite <- Heq. apply Z.mod_pos_bound. lia.
Qed.

Lemma byte_lor a b : Inv.byte a -> Inv.byte b -> Inv.byte (Z.lor a b).
Proof.
  intros Ha Hb. apply byte_of_bits.
  - apply Z.lor_nonneg. unfold Inv.byte in *. lia.
  - intros n Hn. rewrite Z.lor_spec, !byte_high_bits by assumption. reflexivity.
Qed.

Lemma byte_lxor a b : Inv.byte a -> Inv.byte b -> Inv.byte (Z.lxor a b).
Proof.
  intros Ha Hb. apply byte_of_bits.
  - apply Z.lxor_nonneg. unfold Inv.byte in *. lia.
  - intros n Hn. rewrite Z.lxor_spec, !byte_high_bits by assumption. reflexivity.
Qed.

Lemma byte_land a b : Inv.byte a -> Inv.byte b -> Inv.byte (Z.land a b).
Proof.
  unfold Inv.byte. intros Ha Hb. split; [apply Z.land_nonneg; lia|].
  pose proof (land_le_l a b). lia.
Qed.

(** The instructions that only write Vx: 6xkk loads kk, 7xkk adds kk
    modulo 256 and sets no carry, 8xy0 copies Vy, 8xy1, 8xy2 and 8xy3
    store the bitwise OR, AND and XOR of Vx and Vy.  All of them leave
    every other register, VF included, as it was, and advance PC by 2. *)
Theorem register_writes isKeyPressed u opcode s s' :
  Inv.wf s ->
  executeInstruction isKeyPressed u opcode s = Ok s' ->
  Z.land opcode 0xF000 = 0x6000 \/ Z.land opcode 0xF000 = 0x7000 \/
  Z.land opcode 0xF000 = 0x8000 /\ 0 <= Z.land opcode 0xF <= 3 ->
  getV s' (opX opcode)
  = (if Z.land opcode 0xF000 =? 0x6000 then Z.land opcode 0xFF
     else if Z.land opcode 0xF000 =? 0x7000
          then (getV s (opX opcode) + Z.land opcode 0xFF) mod 256
     else if Z.land opcode 0xF =? 0 then getV s (opY opcode)
     else if Z.land opcode 0xF =? 1
          then Z.lor (getV s (opX opcode)) (getV s (opY opcode))
     else if Z.land opcode 0xF =? 2
          then Z.land (getV s (opX opcode)) (getV s (opY opcode))
     else Z.lxor (getV s (opX opcode)) (getV s (opY opcode))) /\
  (forall z, z <> opX opcode -> getV s' z = getV s z) /\
  s' = set_v (skip s) (v s').
Proof.
  intros Hwf Hexec Hcase.
  pose proof (opX_range opcode) as Hx.
  assert (Hlen : length (v s) = 16%nat) by apply Hwf.
  pose proof (getV_byte s (opX opcode) Hwf) as Hbx.
  pose proof (getV_byte s (opY opcode) Hwf) as Hby.
  pose proof (land_0xFF_range opcode) as Hkk.
  assert (Hset : forall val, Inv.byte val ->
            getV (setV (skip s) (opX opcode) val) (opX opcode) = val /\
            (forall z, z <> opX opcode ->
                       getV (setV (skip s) (opX opcode) val) z = getV s z) /\
            setV (skip s) (opX opcode) val
            = set_v (skip s) (v (setV (skip s) (opX opcode) val))).
  { intros val Hval. split; [|split].
    - rewrite getV_setV_eq by (simpl; lia). apply byte_mod_small, Hval.
    - intros z Hz. rewrite getV_setV_ne by lia. reflexivity.
    - reflexivity. }
  destruct Hcase as [Hc | [Hc | [Hc Hn]]]; rewrite Hc; cbn [Z.eqb Pos.eqb].
  - rewrite exec_LD_byte in Hexec by assumption. injection Hexec as <-.
    apply Hset. exact Hkk.
  - rewrite exec_ADD_byte in Hexec by assumption. injection Hexec as <-.
    rewrite getV_skip.
    destruct (Hset ((getV s (opX opcode) + Z.land opcode 0xFF) mod 256))
      as (H1 & H2 & H3); [apply byte_mod|].
    split; [|split].
    + rewrite getV_setV_eq by (simpl; lia). reflexivity.
    + intros z Hz. rewrite getV_setV_ne by lia. reflexivity.
    + reflexivity.
  - assert (Hn' : Z.land opcode 0xF = 0 \/ Z.land opcode 0xF = 1 \/
                  Z.land opcode 0xF = 2 \/ Z.land opcode 0xF = 3) by lia.
    destruct Hn' as [Hl | [Hl | [Hl | Hl]]]; rewrite Hl; cbn [Z.eqb Pos.eqb].
    + revert Hexec. unfold executeInstruction. rewrite Hc, Hl.
      intros [= <-]. rewrite getV_skip. apply Hset, Hby.
    + rewrite exec_OR in Hexec by assumption. injection Hexec as <-.
      rewrite !getV_skip. apply Hset, byte_lor; assumption.
    + rewrite exec_AND in Hexec by assumption. injection Hexec as <-.
      rewrite !getV_skip. apply Hset, byte_land; assumption.
    + rewrite exec_XOR in Hexec by assumption. injection Hexec as <-.
      rewrite !getV_skip. apply Hset, byte_lxor; assumption.
Qed.

(** 0x70FF adds 255 to the 3 of V0 while VF holds 9: V0 wraps to 2 and
    VF is still 9. *)
Lemma register_writes_witness :
  exists s',
    executeInstruction Chip8.noKey Chip8.zero 0x70FF
      (setV (setV Chip8.cpu 0 3) 0xF 9) = Ok s' /\
    getV s' 0 = 2 /\ getV s' 0xF = 9.
Proof.
  destruct (executeInstruction_never_throws Chip8.noKey Chip8.zero 0x70FF
              (setV (setV Chip8.cpu 0 3) 0xF 9)) as [s' Hs'].
  destruct (register_writes Chip8.noKey Chip8.zero 0x70FF
              (setV (setV Chip8.cpu 0 3) 0xF 9) s') as (Hx & Hrest & _).
  - apply wf_setV, wf_setV, wf_new.
  - exact Hs'.
  - right; left; reflexivity.
  - exists s'. split; [exact Hs'|]. split; [exact Hx|].
    rewrite (Hrest 0xF) by discriminate. reflexivity.
Defined.

(** ** Conditional skips *)

(** The six skip instructions change PC only: they advance it by 2
    twice when their condition holds and once when it does not.  3xkk
    skips when Vx equals kk and 4xkk when it differs; 5xy_ skips when Vx
    equals Vy and 9xy_ when they differ, whatever the last nibble is;
    Ex9E skips when the key Vx is held and ExA1 when it is not. *)
Theorem skips_change_only_PC isKeyPressed u opcode s :
  let taken := Ok (skip (skip s)) in
  let not_taken := Ok (skip s) in
  let vx := getV s (opX opcode) in
  let vy := getV s (opY opcode) in
  (Z.land opcode 0xF000 = 0x3000 ->
   executeInstruction isKeyPressed u opcode s
   = if vx =? Z.land opcode 0xFF then taken else not_taken) /\
  (Z.land opcode 0xF000 = 0x4000 ->
   executeInstruction isKeyPressed u opcode s
   = if vx =? Z.land opcode 0xFF then not_taken else taken) /\
  (Z.land opcode 0xF000 = 0x5000 ->
   executeInstruction isKeyPressed u opcode s
   = if vx =? vy then taken else not_taken) /\
  (Z.land opcode 0xF000 = 0x9000 ->
   executeInstruction isKeyPressed u opcode s
   = if vx =? vy then not_taken else taken) /\
  (Z.land opcode 0xF000 = 0xE000 -> Z.land opcode 0xFF = 0x9E ->
   executeInstruction isKeyPressed u opcode s
   = if isKeyPressed vx then taken else not_taken) /\
  (Z.land opcode 0xF000 = 0xE000 -> Z.land opcode 0xFF = 0xA1 ->
   executeInstruction isKeyPressed u opcode s
   = if isKeyPressed vx then not_taken else taken) /\
  (forall p, pc s = JS.Num p ->
     pc (skip (skip s)) = JS.Num (p + 4) /\ pc (skip s) = JS.Num (p + 2)).
Proof.
  cbv zeta. repeat split.
  - intros H. rewrite exec_SE_byte by assumption. destruct (_ =? _); reflexivity.
  - intros H. rewrite exec_SNE_byte by assumption. destruct (_ =? _); reflexivity.
  - intros H. rewrite exec_SE_xy by assumption. destruct (_ =? _); reflexivity.
  - intros H. rewrite exec_SNE_xy by assumption. destruct (_ =? _); reflexivity.
  - intros H1 H2. rewrite exec_SKP by assumption. destruct (isKeyPressed _); reflexivity.
  - intros H1 H2. rewrite exec_SKNP by assumption. destruct (isKeyPressed _); reflexivity.
  - unfold skip; simpl. rewrite H. simpl. f_equal. lia.
  - unfold skip; simpl. rewrite H. reflexivity.
Qed.

(** 0x5011 (last nibble 1) with equal V0 and V1 skips; 0xE09E with no
    key held does not. *)
Lemma skips_change_only_PC_witness :
  executeInstruction Chip8.noKey Chip8.zero 0x5011 Chip8.cpu
  = Ok (set_pc Chip8.cpu (JS.Num 0x204)) /\
  executeInstruction Chip8.noKey Chip8.zero 0xE09E Chip8.cpu
  = Ok (set_pc Chip8.cpu (JS.Num 0x202)).
Proof.
  pose proof (skips_change_only_PC Chip8.noKey Chip8.zero 0x5011 Chip8.cpu)
    as (_ & _ & H5 & _).
  pose proof (skips_change_only_PC Chip8.noKey Chip8.zero 0xE09E Chip8.cpu)
    as (_ & _ & _ & _ & HE & _).
  split; [exact (H5 eq_refl) | exact (HE eq_refl eq_refl)].
Defined.

(** ** The font *)

(** Fx29 sets I to five times Vx, with no masking of Vx.  On a machine
    whose font is loaded and for a hexadecimal digit in Vx, I then
    points to the five rows of the glyph of that digit. *)
Theorem LD_F_points_to_the_glyph isKeyPressed u opcode s d :
  Z.land opcode 0xF000 = 0xF000 -> Z.land opcode 0xFF = 0x29 ->
  getV s (opX opcode) = d ->
  exists s', executeInstruction isKeyPressed u opcode s = Ok s' /\
    i s' = 5 * d /\ memory s' = memory s /\
    (0 <= d < 16 ->
     (forall k b, sprites !! k = Some b -> JS.get (memory s) (Z.of_nat k) = Some b) ->
     forall row, 0 <= row < 5 ->
       JS.get (memory s') (i s' + row) = sprites !! Z.to_nat (5 * d + row)).
Proof.
  intros Hop Hlow Hd. rewrite exec_LD_F by assumption.
  eexists; split; [reflexivity|]. cbn [i memory set_i skip set_pc].
  rewrite Hd. split; [lia|]. split; [reflexivity|].
  intros Hdigit Hfont row Hrow.
  replace (d * 5 + row) with (Z.of_nat (Z.to_nat (5 * d + row))) by lia.
  destruct (sprites !! Z.to_nat (5 * d + row)) as [b|] eqn:E.
  - apply Hfont, E.
  - apply lookup_ge_None in E. change (length sprites) with 80%nat in E. lia.
Qed.

Lemma memory_setV s x a : memory (setV s x a) = memory s.
Proof. reflexivity. Qed.

Lemma font_loaded_A k b :
  sprites !! k = Some b ->
  JS.get (memory (setV (loadSpritesIntoMemory Chip8.cpu) 0 0xA)) (Z.of_nat k) = Some b.
Proof.
  intros Hk. rewrite memory_setV.
  apply loadSprites_font; [reflexivity | exact Hk].
Qed.

Lemma digit_A_in_V0 :
  getV (setV (loadSpritesIntoMemory Chip8.cpu) 0 0xA) (opX 0xF029) = 0xA.
Proof. vm_compute. reflexivity. Qed.

(** The digit 0xA on a machine with the font loaded: I = 50 and the
    first row of the glyph is 0xF0. *)
Lemma LD_F_points_to_the_glyph_witness :
  exists s',
    executeInstruction Chip8.noKey Chip8.zero 0xF029
      (setV (loadSpritesIntoMemory Chip8.cpu) 0 0xA) = Ok s' /\
    i s' = 50 /\ JS.get (memory s') (i s' + 0) = sprites !! 50%nat.
Proof.
  destruct (LD_F_points_to_the_glyph Chip8.noKey Chip8.zero 0xF029
              (setV (loadSpritesIntoMemory Chip8.cpu) 0 0xA) 0xA
              eq_refl eq_refl digit_A_in_V0)
    as (s' & He & Hi & _ & Hrows).
  exists s'. split; [exact He|]. split; [exact Hi|].
  assert (Hd : 0 <= 0xA < 16) by lia.
  assert (Hr : 0 <= 0 < 5) by lia.
  exact (Hrows Hd font_loaded_A 0 Hr).
Defined.

(** The font of a new machine, loaded by [loadSpritesIntoMemory]. *)
Lemma loadSpritesIntoMemory_spec_witness :
  JS.get (memory (loadSpritesIntoMemory Chip8.cpu)) 79 = Some 0x80 /\
  JS.get (memory (loadSpritesIntoMemory Chip8.cpu)) 80 = Some 0.
Proof.
  destruct (loadSpritesIntoMemory_spec Chip8.cpu eq_refl) as (Hin & Hout & _).
  split.
  - apply (Hin 79%nat). reflexivity.
  - rewrite Hout by lia. reflexivity.
Defined.

(** ** Timers *)

Lemma updateTimers_iter n : forall s,
  0 <= delayTimer s -> 0 <= soundTimer s ->
  delayTimer (Nat.iter n updateTimers s) = Z.max 0 (delayTimer s - Z.of_nat n) /\
  soundTimer (Nat.iter n updateTimers s) = Z.max 0 (soundTimer s - Z.of_nat n) /\
  v (Nat.iter n updateTimers s) = v s.
Proof.
  induction n as [|n IH]; intros s Hd Hs.
  - simpl. repeat split; lia.
  - rewrite Nat.iter_succ_r.
    assert (H1 : delayTimer (updateTimers s) = Z.max 0 (delayTimer s - 1) /\
                 soundTimer (updateTimers s) = Z.max 0 (soundTimer s - 1) /\
                 v (updateTimers s) = v s).
    { unfold updateTimers.
      destruct (Z.ltb_spec 0 (delayTimer s)); cbn [soundTimer set_delayTimer];
        destruct (Z.ltb_spec 0 (soundTimer s)); simpl; repeat split; lia. }
    destruct H1 as (Hd1 & Hs1 & Hv1).
    destruct (IH (updateTimers s)) as (Hd2 & Hs2 & Hv2); [lia | lia |].
    rewrite Hd2, Hs2, Hv2, Hd1, Hs1, Hv1. repeat split; lia.
Qed.

(** The delay timer counts frames down and stops at 0: after Fx15 has
    set it from Vx and [updateTimers] has run [n] times, Fy07 reads
    [max 0 (Vx - n)] into Vy. *)
Theorem delay_timer_counts_down isKeyPressed u set get s n a :
  Z.land set 0xF000 = 0xF000 -> Z.land set 0xFF = 0x15 ->
  Z.land get 0xF000 = 0xF000 -> Z.land get 0xFF = 0x07 ->
  Inv.wf s -> getV s (opX set) = a ->
  exists s1 s3,
    executeInstruction isKeyPressed u set s = Ok s1 /\
    executeInstruction isKeyPressed u get (Nat.iter n updateTimers s1) = Ok s3 /\
    delayTimer s1 = a /\
    getV s3 (opX get) = Z.max 0 (a - Z.of_nat n).
Proof.
  intros Hs1 Hs2 Hg1 Hg2 Hwf Ha.
  rewrite exec_LD_DT_Vx by assumption. eexists. eexists.
  split; [reflexivity|].
  rewrite exec_LD_Vx_DT by assumption. split; [reflexivity|].
  rewrite Ha. split; [reflexivity|].
  pose proof (getV_byte s (opX set) Hwf) as Hb. rewrite Ha in Hb.
  unfold Inv.byte in Hb.
  assert (Hsnd : 0 <= soundTimer s) by apply Hwf.
  destruct (updateTimers_iter n (set_delayTimer (skip s) a)) as (Hd & _ & Hv);
    [simpl; lia | simpl; lia |].
  pose proof (opX_range get) as Hx.
  rewrite getV_setV_eq.
  - rewrite Hd. simpl. apply Z.mod_small. lia.
  - cbn [v skip set_pc]. rewrite Hv. apply Hwf.
  - exact Hx.
Qed.

(** 60 frames after 0xF015 with 100 in V0, 0xF107 reads 40 into V1. *)
Lemma delay_timer_counts_down_witness :
  exists s1 s3,
    executeInstruction Chip8.noKey Chip8.zero 0xF015 (setV Chip8.cpu 0 100) = Ok s1 /\
    executeInstruction Chip8.noKey Chip8.zero 0xF107 (Nat.iter 60 updateTimers s1)
    = Ok s3 /\
    delayTimer s1 = 100 /\ getV s3 1 = 40.
Proof.
  apply (delay_timer_counts_down Chip8.noKey Chip8.zero 0xF015 0xF107
           (setV Chip8.cpu 0 100) 60 100); try reflexivity.
  apply wf_setV, wf_new.
Defined.

(** ** Waiting for a key *)

Lemma getV_set_paused s b z : getV (set_paused s b) z = getV s z.
Proof. reflexivity. Qed.

(** Fx0A stops the machine: the rest of the frame executes nothing, the
    timers of that frame are not updated, and the machine stays as it
    is until the key callback runs, which puts the key into Vx, resumes
    the machine and touches nothing else (the callback stays
    registered). *)
Theorem key_wait_pauses_until_a_key isKeyPressed rnd s opcode :
  paused s = false -> 0 < speed s ->
  fetch s = opcode ->
  Z.land opcode 0xF000 = 0xF000 -> Z.land opcode 0xFF = 0x0A ->
  length (v s) = 16%nat ->
  let waiting := LD_K (opX opcode) (skip s) in
  exists s',
    cycle isKeyPressed rnd s = Ok s' /\
    memory s' = memory s /\ i s' = i s /\ stack s' = stack s /\
    Renderer.display (renderer s') = Renderer.display (renderer s) /\
    paused s' = true /\ onNextKeyPress s' = Some (opX opcode) /\
    pc s' = JS.add (pc s) 2 /\ v s' = v s /\
    delayTimer s' = delayTimer s /\ soundTimer s' = soundTimer s /\
    forall key,
      paused (keyPressed (opX opcode) key s') = false /\
      getV (keyPressed (opX opcode) key s') (opX opcode) = key mod 256 /\
      (forall z, z <> opX opcode ->
                 getV (keyPressed (opX opcode) key s') z = getV s z) /\
      pc (keyPressed (opX opcode) key s') = JS.add (pc s) 2 /\
      onNextKeyPress (keyPressed (opX opcode) key s') = Some (opX opcode).
Proof.
  intros Hp Hspeed Hf Hop Hlow Hlen waiting.
  assert (Hloop : cycleLoop isKeyPressed rnd (Z.to_nat (speed s)) 0 s = Ok waiting).
  { destruct (Z.to_nat (speed s)) as [|n] eqn:E; [lia|].
    cbn [cycleLoop]. rewrite Hp, Hf, exec_LD_K by assumption.
    apply cycleLoop_paused. reflexivity. }
  unfold cycle. rewrite Hloop. cbv beta iota.
  change (paused waiting) with true. cbv iota.
  eexists. split; [reflexivity|].
  pose proof (opX_range opcode) as Hx.
  unfold playSound, waiting.
  destruct (0 <? soundTimer (LD_K (opX opcode) (skip s)));
    cbn [paused onNextKeyPress pc v delayTimer soundTimer set_renderer set_speaker
         LD_K set_onNextKeyPress set_paused skip set_pc memory i stack renderer];
    repeat split; try reflexivity; unfold keyPressed;
    first [ rewrite getV_set_paused, getV_setV_eq by (first [exact Hlen | lia]);
            reflexivity
          | intros z Hz; rewrite getV_set_paused, getV_setV_ne by lia; reflexivity ].
Qed.

(** The program 0xF30A on the machine of chip8.js, and the key 7. *)
Lemma key_wait_pauses_until_a_key_witness :
  exists s',
    cycle Chip8.noKey (fun _ => Chip8.zero) (Chip8.init [0xF3; 0x0A]) = Ok s' /\
    paused s' = true /\ pc s' = JS.Num 0x202 /\
    getV (keyPressed 3 7 s') 3 = 7 /\ paused (keyPressed 3 7 s') = false.
Proof.
  destruct (key_wait_pauses_until_a_key Chip8.noKey (fun _ => Chip8.zero)
              (Chip8.init [0xF3; 0x0A]) 0xF30A eq_refl eq_refl
              (init_fetch 0xF3 0x0A []) eq_refl eq_refl eq_refl)
    as (s' & Hc & _ & _ & _ & _ & Hp & _ & Hpc & _ & _ & _ & Hkey).
  exists s'. destruct (Hkey 7) as (Hr & Hv & _).
  split; [exact Hc|]. split; [exact Hp|]. split; [exact Hpc|].
  split; [exact Hv | exact Hr].
Defined.

(** ** What a draw leaves alone *)

Lemma drawRows_blank x y n : forall k s log,
  (forall row, k <= row < k + Z.of_nat n -> getMem s (i s + row) = 0) ->
  for_loop n k (drawRow x y) (s, log) = (s, log).
Proof.
  induction n as [|n IH]; intros k s log Hrows; cbn [for_loop]; [reflexivity|].
  assert (Hrow : drawRow x y k (s, log) = (s, log)).
  { unfold drawRow. rewrite (Hrows k) by lia. reflexivity. }
  rewrite Hrow. apply IH. intros row Hr. apply Hrows. lia.
Qed.

(** Dxyn changes no register but VF, and neither the memory nor I; it
    advances PC by 2.  When every row of the sprite is 0, it leaves the
    display as it is and VF at 0: this is so when n is 0, and when the
    sprite is read beyond the end of the memory. *)
Theorem DRW_leaves_the_rest isKeyPressed u opcode s s' :
  Z.land opcode 0xF000 = 0xD000 -> length (v s) = 16%nat ->
  executeInstruction isKeyPressed u opcode s = Ok s' ->
  (forall z, z <> 0xF -> getV s' z = getV s z) /\
  memory s' = memory s /\ i s' = i s /\ pc s' = JS.add (pc s) 2 /\
  ((forall row, 0 <= row < Z.land opcode 0xF -> getMem s (i s + row) = 0) ->
   Renderer.display (renderer s') = Renderer.display (renderer s) /\
   getV s' 0xF = 0).
Proof.
  intros Hop Hlen. rewrite exec_DRW by assumption. intros [= <-].
  pose proof (DRW_inv (opX opcode) (opY opcode) opcode (skip s) Hlen) as Hinv.
  split; [|split; [|split; [|split]]].
  - intros z Hz. destruct (DRW _ _ _ _) as [s1 log]. cbn [fst].
    destruct Hinv as (_ & _ & _ & _ & _ & _ & Hregs).
    rewrite (Hregs z Hz). regs. reflexivity.
  - destruct (DRW _ _ _ _) as [s1 log]. apply Hinv.
  - destruct (DRW _ _ _ _) as [s1 log]. apply Hinv.
  - rewrite (DRW_field pc) by reflexivity. reflexivity.
  - intros Hblank. clear Hinv. unfold DRW.
    rewrite drawRows_blank.
    + cbn [fst]. split; [reflexivity|]. regs. reflexivity.
    + intros row Hr. apply Hblank.
      pose proof (land_0xFF_range opcode).
      assert (0 <= Z.land opcode 0xF) by (apply Z.land_nonneg; right; lia).
      lia.
Qed.

(** 0xD015 with I = 4095 on a machine whose last memory cell is 0: all
    five rows read 0 (four of them beyond the memory). *)
Lemma DRW_leaves_the_rest_witness :
  exists s',
    executeInstruction Chip8.noKey Chip8.zero 0xD015 (set_i Chip8.cpu 4095) = Ok s' /\
    Renderer.display (renderer s') = ∅ /\ getV s' 0xF = 0 /\ i s' = 4095.
Proof.
  destruct (executeInstruction_never_throws Chip8.noKey Chip8.zero 0xD015
              (set_i Chip8.cpu 4095)) as [s' Hs'].
  destruct (DRW_leaves_the_rest Chip8.noKey Chip8.zero 0xD015
              (set_i Chip8.cpu 4095) s' eq_refl eq_refl Hs')
    as (_ & _ & Hi & _ & Hblank).
  exists s'. split; [exact Hs'|].
  destruct Hblank as [Hd HF].
  - intros row Hr. change (Z.land 0xD015 0xF) with 5 in Hr.
    unfold getMem. cbn [i set_i memory].
    destruct (Z.eq_dec row 0) as [-> | Hne]; [reflexivity|].
    rewrite get_out_of_range; [reflexivity|].
    right. change (Z.of_nat (length (memory Chip8.cpu))) with 4096. lia.
  - split; [exact Hd|]. split; [exact HF | exact Hi].
Defined.

(** ** Decoding and assembling opcodes *)

(** The masks of [executeInstruction] take a 16-bit word apart into its
    class and the fields x, y, n, kk and nnn, and the word is the sum of
    its fields; conversely a word assembled from four nibbles decodes to
    them. *)
Theorem opcode_fields_round_trip :
  (forall opcode, 0 <= opcode < 65536 ->
     opcode = Z.land opcode 0xF000 + opX opcode * 0x100 + opY opcode * 0x10
              + Z.land opcode 0xF /\
     Z.land opcode 0xFF = opY opcode * 0x10 + Z.land opcode 0xF /\
     Z.land opcode 0xFFF = opX opcode * 0x100 + Z.land opcode 0xFF /\
     0 <= Z.land opcode 0xF < 16 /\ 0 <= Z.land opcode 0xFFF < 4096) /\
  (forall c x y n,
     0 <= c < 16 -> 0 <= x < 16 -> 0 <= y < 16 -> 0 <= n < 16 ->
     Z.land (c * 0x1000 + x * 0x100 + y * 0x10 + n) 0xF000 = c * 0x1000 /\
     opX (c * 0x1000 + x * 0x100 + y * 0x10 + n) = x /\
     opY (c * 0x1000 + x * 0x100 + y * 0x10 + n) = y /\
     Z.land (c * 0x1000 + x * 0x100 + y * 0x10 + n) 0xF = n).
Proof.
  split.
  - intros opcode Hr. rewrite land_0xF000_div. unfold opX, opY.
    rewrite !Z.shiftr_land.
    change (Z.shiftr 0x0F00 8) with (Z.ones 4).
    change (Z.shiftr 0x00F0 4) with (Z.ones 4).
    change 0xF with (Z.ones 4). change 0xFF with (Z.ones 8).
    change 0xFFF with (Z.ones 12).
    rewrite !Z.land_ones, !Z.shiftr_div_pow2 by lia.
    change (2 ^ 4) with 16. change (2 ^ 8) with 256. change (2 ^ 12) with 4096.
    repeat split; Z.div_mod_to_equations; lia.
  - intros c x y n Hc Hx Hy Hn.
    destruct (opcode_fields c x y n Hc Hx Hy Hn) as (H1 & H2 & H3 & H4 & _).
    auto.
Qed.

Lemma opcode_fields_round_trip_witness :
  0x8AB4 = Z.land 0x8AB4 0xF000 + opX 0x8AB4 * 0x100 + opY 0x8AB4 * 0x10
           + Z.land 0x8AB4 0xF /\
  opX (0x8 * 0x1000 + 0xA * 0x100 + 0xB * 0x10 + 0x4) = 0xA.
Proof.
  destruct opcode_fields_round_trip as [Hdec Henc].
  split.
  - apply (Hdec 0x8AB4). lia.
  - apply (Henc 0x8 0xA 0xB 0x4); lia.
Defined.

(** ** The picture on the canvas *)

Lemma elem_of_canvas_render r (rect : Renderer.rect) :
  rect ∈ Renderer.canvas (Renderer.render r) <->
  exists cell, 0 <= cell < 2048 /\ Renderer.lit r cell = true /\
    rect = (cell mod 64 * Renderer.scale r, cell / 64 * Renderer.scale r,
            Renderer.scale r, Renderer.scale r).
Proof.
  unfold Renderer.render. cbn [Renderer.canvas Renderer.set_canvas].
  rewrite list_elem_of_omap. unfold Renderer.lit.
  change (Renderer.cols * Renderer.rows) with 2048.
  split.
  - intros (cell & Hin & Hsome). apply elem_of_seqZ in Hin.
    exists cell. destruct (JS.truthy (Renderer.display r !! cell)); [|discriminate].
    injection Hsome as <-. repeat split; try lia.
  - intros (cell & Hr & Hlit & ->). exists cell. split.
    + apply elem_of_seqZ. lia.
    + rewrite Hlit. reflexivity.
Qed.

(** [render] paints exactly one square per lit cell among the cells 0
    to 2047, at column [cell mod 64] and row [cell / 64] scaled by
    [scale]; it does not change the display, and a cell outside the
    grid is never painted. *)
Theorem render_paints_the_lit_cells r (rect : Renderer.rect) :
  (rect ∈ Renderer.canvas (Renderer.render r) <->
   exists cell, 0 <= cell < 2048 /\ Renderer.lit r cell = true /\
     rect = (cell mod 64 * Renderer.scale r, cell / 64 * Renderer.scale r,
             Renderer.scale r, Renderer.scale r)) /\
  Renderer.display (Renderer.render r) = Renderer.display r /\
  Renderer.scale (Renderer.render r) = Renderer.scale r.
Proof.
  split; [apply elem_of_canvas_render|]. split; reflexivity.
Qed.

(** On a display of zeros and ones, [setPixel] flips the pixel it
    addresses, returns whether that pixel was lit, and leaves every
    other pixel as it was.  For coordinates inside the 64 x 32 grid the
    cell is [x + 64 * y], and the next [render] paints the square at
    column [x] and row [y] exactly when the pixel was off before. *)
Theorem setPixel_flips_one_pixel r x y :
  Inv.binary (Renderer.display r) ->
  Renderer.lit (fst (Renderer.setPixel r x y)) (Renderer.pixelLoc x y)
  = negb (Renderer.lit r (Renderer.pixelLoc x y)) /\
  snd (Renderer.setPixel r x y) = Renderer.lit r (Renderer.pixelLoc x y) /\
  (forall loc, loc <> Renderer.pixelLoc x y ->
     Renderer.lit (fst (Renderer.setPixel r x y)) loc = Renderer.lit r loc) /\
  Inv.binary (Renderer.display (fst (Renderer.setPixel r x y))) /\
  (0 <= x < 64 -> 0 <= y < 32 ->
   Renderer.pixelLoc x y = x + 64 * y /\ 0 <= Renderer.pixelLoc x y < 2048 /\
   (0 < Renderer.scale r ->
    ((x * Renderer.scale r, y * Renderer.scale r, Renderer.scale r, Renderer.scale r)
       ∈ Renderer.canvas (Renderer.render (fst (Renderer.setPixel r x y))) <->
     Renderer.lit r (Renderer.pixelLoc x y) = false))).
Proof.
  intros Hbin.
  set (loc := Renderer.pixelLoc x y).
  assert (Hflip : Renderer.lit (fst (Renderer.setPixel r x y)) loc
                  = negb (Renderer.lit r loc)).
  { unfold Renderer.lit. rewrite setPixel_display. fold loc.
    unfold Draw.toggle. rewrite lookup_insert_eq.
    destruct (Renderer.display r !! loc) as [c|] eqn:E; [|reflexivity].
    destruct (Hbin loc c E) as [-> | ->]; reflexivity. }
  split; [exact Hflip|]. split; [|split; [|split]].
  - rewrite setPixel_returns_now_off. fold loc. rewrite Hflip.
    apply negb_involutive.
  - intros loc' Hne. unfold Renderer.lit. rewrite setPixel_display. fold loc.
    unfold Draw.toggle. rewrite lookup_insert_ne by congruence. reflexivity.
  - rewrite setPixel_display. apply binary_toggle, Hbin.
  - intros Hx Hy.
    assert (Hloc : loc = x + 64 * y).
    { unfold loc, Renderer.pixelLoc, Renderer.cols, Renderer.rows.
      destruct (Z.ltb_spec 64 x); [lia|]. destruct (Z.ltb_spec x 0); [lia|].
      destruct (Z.ltb_spec 32 y); [lia|]. destruct (Z.ltb_spec y 0); [lia|].
      lia. }
    split; [exact Hloc|]. split; [lia|].
    intros Hscale.
    rewrite elem_of_canvas_render.
    change (Renderer.scale (fst (Renderer.setPixel r x y))) with (Renderer.scale r).
    split.
    + intros (cell & Hr & Hlit & Heq). injection Heq as Hcx Hcy.
      apply Z.mul_cancel_r in Hcx; [|lia]. apply Z.mul_cancel_r in Hcy; [|lia].
      assert (Hcell : cell = loc)
        by (rewrite Hloc; Z.div_mod_to_equations; lia).
      rewrite Hcell, Hflip in Hlit. apply negb_true_iff, Hlit.
    + intros Hoff. exists loc. split; [lia|]. split.
      * rewrite Hflip, Hoff. reflexivity.
      * rewrite Hloc.
        assert (Hm : (x + 64 * y) mod 64 = x) by (Z.div_mod_to_equations; lia).
        assert (Hd : (x + 64 * y) / 64 = y) by (Z.div_mod_to_equations; lia).
        rewrite Hm, Hd. reflexivity.
Qed.

(** The pixel (5, 2) set on the empty display of chip8.js, whose scale
    is 10: the cell 133 is lit and painted at (50, 20). *)
Lemma setPixel_flips_one_pixel_witness :
  Renderer.pixelLoc 5 2 = 133 /\
  snd (Renderer.setPixel Chip8.renderer 5 2) = false /\
  (50, 20, 10, 10)
    ∈ Renderer.canvas (Renderer.render (fst (Renderer.setPixel Chip8.renderer 5 2))).
Proof.
  destruct (setPixel_flips_one_pixel Chip8.renderer 5 2 binary_empty)
    as (_ & Hret & _ & _ & Hgrid).
  destruct Hgrid as (Hloc & _ & Hpaint); [lia | lia |].
  split; [exact Hloc|]. split; [exact Hret|].
  apply (Hpaint ltac:(reflexivity)). reflexivity.
Defined.

(** ** Subroutines, jumps and the index register *)

Section ControlFlow.

Implicit Types (s : CPU.t) (opcode : Z).

Lemma land_0xFFF_range a : 0 <= Z.land a 0xFFF < 4096.
Proof.
  change 0xFFF with (Z.ones 12). rewrite Z.land_ones by lia.
  apply Z.mod_pos_bound. lia.
Qed.

Lemma RET_after_CALL opcode s : RET (skip (CALL opcode (skip s))) = skip s.
Proof. destruct s. reflexivity. Qed.

End ControlFlow.

(** 2nnn pushes the address of the next instruction, whatever the depth
    of the stack, and continues at nnn; a 00EE executed in the state
    that the call produced continues right after the call, with the
    stack and everything else as they were before it. *)
Theorem call_then_return isKeyPressed u u' opcode s :
  Z.land opcode 0xF000 = 0x2000 ->
  exists s1,
    executeInstruction isKeyPressed u opcode s = Ok s1 /\
    pc s1 = JS.Num (Z.land opcode 0xFFF) /\
    stack s1 = JS.add (pc s) 2 :: stack s /\
    executeInstruction isKeyPressed u' 0x00EE s1 = Ok (skip s).
Proof.
  intros Hop. exists (CALL opcode (skip s)).
  split; [apply exec_CALL, Hop|].
  split; [reflexivity|]. split; [reflexivity|].
  rewrite exec_RET, RET_after_CALL. reflexivity.
Qed.

(** A call to 0x2F0 at 0x200 of the fresh machine, and the return. *)
Lemma call_then_return_witness :
  exists s1,
    executeInstruction Chip8.noKey Chip8.zero 0x22F0 Chip8.cpu = Ok s1 /\
    pc s1 = JS.Num 0x2F0 /\
    stack s1 = [JS.Num 0x202] /\
    executeInstruction Chip8.noKey Chip8.zero 0x00EE s1
    = Ok (set_pc Chip8.cpu (JS.Num 0x202)).
Proof.
  exact (call_then_return Chip8.noKey Chip8.zero Chip8.zero 0x22F0 Chip8.cpu eq_refl).
Defined.

(** 1nnn continues at nnn, inside the memory, and the address after the
    jump is forgotten; Bnnn continues at nnn + V0, which is at most
    0x10FE and so can lie beyond the memory; Annn sets I to nnn; Fx1E
    adds Vx to I, with no wrap at 0xFFF; Fx18 sets the sound timer to
    Vx.  Each changes nothing else but PC. *)
Theorem jumps_and_index isKeyPressed u opcode s :
  Inv.wf s ->
  0 <= Z.land opcode 0xFFF < 4096 /\
  0 <= getV s 0 < 256 /\ 0 <= getV s (opX opcode) < 256 /\
  (Z.land opcode 0xF000 = 0x1000 ->
   executeInstruction isKeyPressed u opcode s
   = Ok (set_pc s (JS.Num (Z.land opcode 0xFFF)))) /\
  (Z.land opcode 0xF000 = 0xB000 ->
   executeInstruction isKeyPressed u opcode s
   = Ok (set_pc s (JS.Num (Z.land opcode 0xFFF + getV s 0)))) /\
  (Z.land opcode 0xF000 = 0xA000 ->
   executeInstruction isKeyPressed u opcode s
   = Ok (set_i (skip s) (Z.land opcode 0xFFF))) /\
  (Z.land opcode 0xF000 = 0xF000 -> Z.land opcode 0xFF = 0x1E ->
   executeInstruction isKeyPressed u opcode s
   = Ok (set_i (skip s) (i s + getV s (opX opcode)))) /\
  (Z.land opcode 0xF000 = 0xF000 -> Z.land opcode 0xFF = 0x18 ->
   executeInstruction isKeyPressed u opcode s
   = Ok (set_soundTimer (skip s) (getV s (opX opcode)))).
Proof.
  intros Hwf.
  split; [apply land_0xFFF_range|].
  split; [apply (getV_byte s 0 Hwf)|].
  split; [apply (getV_byte s _ Hwf)|].
  repeat split.
  - intros Hop. unfold executeInstruction. rewrite Hop. destruct s. reflexivity.
  - intros Hop. unfold executeInstruction. rewrite Hop. destruct s. reflexivity.
  - intros Hop. unfold executeInstruction. rewrite Hop. reflexivity.
  - intros Hop Hlow. unfold executeInstruction. rewrite Hop, Hlow. reflexivity.
  - intros Hop Hlow. unfold executeInstruction. rewrite Hop, Hlow. reflexivity.
Qed.

(** B2F0 with 0xFF in V0 continues at 0x3EF. *)
Lemma jumps_and_index_witness :
  Inv.wf (setV Chip8.cpu 0 0xFF) /\
  executeInstruction Chip8.noKey Chip8.zero 0xB2F0 (setV Chip8.cpu 0 0xFF)
  = Ok (set_pc (setV Chip8.cpu 0 0xFF) (JS.Num 0x3EF)).
Proof.
  assert (Hwf : Inv.wf (setV Chip8.cpu 0 0xFF)) by apply wf_setV, wf_new.
  split; [exact Hwf|].
  exact (proj1 (proj2 (proj2 (proj2 (proj2
    (jumps_and_index Chip8.noKey Chip8.zero 0xB2F0 _ Hwf))))) eq_refl).
Defined.
